(** * RCNNProposal: final object detections of the Faster R-CNN head

    A shallow embedding of [luminoth/models/fasterrcnn/rcnn_proposal.py].

    The module builds a TensorFlow graph; the embedding is the function that
    graph computes on concrete tensors.

    - A float is a rational number ([Q]); there is no NaN or infinity.
      Comparisons are the boolean ones of [QArith].  Arithmetic whose result
      is only compared (the area of the validity filter, the overlap of two
      boxes) is exact.  Arithmetic whose result is returned (the decoder)
      rounds each operation to the nearest float32, see [float32].
    - A rank-1 tensor is a list, a rank-2 tensor is the list of its rows.  The
      number of columns of a tensor without rows is therefore not represented.
    - An integer tensor entry (a label, an index) is a [Z] or a [nat].  A
      Python integer given to an op that takes an int32 tensor is converted
      when the graph is built, see [int32].
    - A failing op (a [tf.assert_equal] that does not hold, an op that
      rejects its arguments) is a value [Err e] of the [result] type, threaded
      through the stages in textual order. *)

From Stdlib Require Import List ZArith QArith Qminmax Bool Lia Lqa.
From Stdlib Require Import Permutation Sorted.
Import ListNotations.

Set Implicit Arguments.
Local Open Scope Q_scope.

(** ** Failures *)

(** [ShapeMismatch]: one of the two [tf.assert_equal] of [_build] (lines 89
    and 114) does not hold.
    [OpError]: an op was given an argument it cannot process (an empty
    reduction axis, a reshape that does not divide, an index out of range, an
    IoU threshold outside [0,1], a negative size, nothing to concatenate). *)
Inductive error : Type :=
| ShapeMismatch
| OpError.

Inductive result (A : Type) : Type :=
| Ok (a : A)
| Err (e : error).

Arguments Ok {A} a.
Arguments Err {A} e.

Definition bind {A B : Type} (c : result A) (k : A -> result B) : result B :=
  match c with
  | Ok a => k a
  | Err e => Err e
  end.

Notation "x <- c ;; k" := (bind c (fun x => k))
  (at level 61, c at next level, right associativity).
Notation "' p <- c ;; k" := (bind c (fun p => k))
  (at level 61, p pattern, c at next level, right associativity).

Fixpoint mapM {A B : Type} (f : A -> result B) (l : list A) : result (list B) :=
  match l with
  | [] => Ok []
  | x :: l' => y <- f x ;; ys <- mapM f l' ;; Ok (y :: ys)
  end.

(** Strict comparison of floats, [x < y]. *)
Definition Qlt_bool (x y : Q) : bool := negb (Qle_bool y x).

(** A box is four floats.  In the convention of the repository they are
    (x_min, y_min, x_max, y_max); in TensorFlow's they are
    (y_min, x_min, y_max, x_max). *)
Definition box : Type := (Q * Q * Q * Q)%type.

Definition box_eq (a b : box) : Prop :=
  let '(a1, a2, a3, a4) := a in
  let '(b1, b2, b3, b4) := b in
  a1 == b1 /\ a2 == b2 /\ a3 == b3 /\ a4 == b4.

(** ** Rounding

    The result of an arithmetic operation on floats is the float nearest to
    its exact value, the one with an even significand when two are equally
    near.  The format is float32, a significand of 24 bits; its exponent
    range is not modelled (no overflow, no subnormal number). *)

(** The integer nearest to [n / d], the even one of two equally near; [d] is
    positive and [n] is not negative. *)
Definition nearest_even (n d : Z) : Z :=
  let q := (n / d)%Z in
  let r := (n mod d)%Z in
  match (2 * r ?= d)%Z with
  | Lt => q
  | Gt => (q + 1)%Z
  | Eq => if Z.even q then q else (q + 1)%Z
  end.

(** The float nearest to [n / d] for positive [n] and [d]: with [e] the
    largest exponent such that [2 ^ e <= n / d], the significand is
    [n / d / 2 ^ (e - 23)] rounded to an integer. *)
Definition float32_pos (n d : Z) : Q :=
  let e0 := (Z.log2 n - Z.log2 d)%Z in
  let above := if (0 <=? e0)%Z then (d * 2 ^ e0 <=? n)%Z
               else (d <=? n * 2 ^ (- e0))%Z in
  let e := if above then e0 else (e0 - 1)%Z in
  let s := (e - 23)%Z in
  if (0 <=? s)%Z then inject_Z (nearest_even n (d * 2 ^ s) * 2 ^ s)
  else Qred (Qmake (nearest_even (n * 2 ^ (- s)) d) (Z.to_pos (2 ^ (- s)))).

Definition float32 (x : Q) : Q :=
  match Qnum x with
  | Z0 => 0
  | Zpos n => float32_pos (Zpos n) (Zpos (Qden x))
  | Zneg n => - float32_pos (Zpos n) (Zpos (Qden x))
  end.

(** ** The TensorFlow ops [_build] calls *)

Module TF.

(** A Python integer given where an op takes an int32 tensor is converted to
    one when the graph is built; the conversion is refused outside the range
    of int32. *)
Definition int32 (z : Z) : result Z :=
  if ((-2147483648 <=? z) && (z <=? 2147483647))%Z then Ok z else Err OpError.

(** [tf.argmax(t, axis=1)] on one row: the index of the largest entry, the
    smallest such index when the largest value occurs more than once.  The
    scan keeps the best value seen so far and replaces it only by a strictly
    larger one.  An empty row has nothing to reduce. *)
Fixpoint argmax_from (best : Q) (besti i : nat) (row : list Q) : nat :=
  match row with
  | [] => besti
  | x :: row' =>
      if Qlt_bool best x then argmax_from x i (S i) row'
      else argmax_from best besti (S i) row'
  end.

Definition argmax (row : list Q) : result Z :=
  match row with
  | [] => Err OpError
  | x :: row' => Ok (Z.of_nat (argmax_from x 0 1 row'))
  end.

(** [tf.reduce_max(t, axis=1)] on one row. *)
Fixpoint reduce_max_from (best : Q) (row : list Q) : Q :=
  match row with
  | [] => best
  | x :: row' =>
      if Qlt_bool best x then reduce_max_from x row'
      else reduce_max_from best row'
  end.

Definition reduce_max (row : list Q) : result Q :=
  match row with
  | [] => Err OpError
  | x :: row' => Ok (reduce_max_from x row')
  end.

(** [tf.logical_and] of two masks of the same length. *)
Definition logical_and (a b : list bool) : list bool :=
  map (fun ab => andb (fst ab) (snd ab)) (combine a b).

(** [tf.where(mask)]: the positions of the true entries, in order. *)
Fixpoint where_from (i : nat) (mask : list bool) : list nat :=
  match mask with
  | [] => []
  | b :: mask' =>
      if b then i :: where_from (S i) mask' else where_from (S i) mask'
  end.

Definition where_ (mask : list bool) : list nat := where_from 0 mask.

(** [tf.gather(t, indices)]: the rows of [t] at the given positions; a position
    outside [t] is rejected. *)
Definition gather {A : Type} (t : list A) (indices : list nat) : result (list A) :=
  mapM (fun i => match nth_error t i with
                 | Some x => Ok x
                 | None => Err OpError
                 end) indices.

(** [tf.boolean_mask(t, mask)].  The number of proposals is not known when the
    graph is built (docstring of [_build]), so the op cannot compare the
    length of [mask] with the number of rows of [t] beforehand; what runs is
    [gather(t, where(mask))], which looks at [t] only at the true positions
    of [mask]. *)
Definition boolean_mask {A : Type} (t : list A) (mask : list bool) : result (list A) :=
  gather t (where_ mask).

(** [tf.one_hot(labels, depth)]: row [i] has a one at column [labels[i]] when
    that is a column, and is zero everywhere otherwise. *)
Definition one_hot (labels : list Z) (depth : nat) : list (list bool) :=
  map (fun l => map (fun j => Z.eqb (Z.of_nat j) l) (seq 0 depth)) labels.

(** [tf.reshape(t, [-1])]. *)
Definition flatten {A : Type} (t : list (list A)) : list A := concat t.

(** [tf.reshape(t, [-1, 4])]: the entries of [t] in row-major order, four to a
    row; rejected when their number is not a multiple of four. *)
Fixpoint rows_of_4 (l : list Q) : result (list (list Q)) :=
  match l with
  | [] => Ok []
  | a :: b :: c :: d :: l' => rs <- rows_of_4 l' ;; Ok ([a; b; c; d] :: rs)
  | _ => Err OpError
  end.

Definition reshape_4 (t : list (list Q)) : result (list (list Q)) :=
  rows_of_4 (flatten t).

(** [tf.assert_equal] on two sizes. *)
Definition assert_equal (n m : nat) : result unit :=
  if Nat.eqb n m then Ok tt else Err ShapeMismatch.

(** [tf.concat(values, axis=0)]: there must be something to concatenate. *)
Definition concat0 {A : Type} (values : list (list A)) : result (list A) :=
  match values with
  | [] => Err OpError
  | _ => Ok (concat values)
  end.

(** [tf.tile([v], [n])]. *)
Definition tile {A : Type} (v : A) (n : nat) : list A := repeat v n.

(** Stable sort by decreasing key: of two items with the same key the one
    that came first stays first.  [insert_desc x l] puts [x], which came
    before every item of [l], in front of the first item whose key is not
    larger than its own. *)
Fixpoint insert_desc {A : Type} (key : A -> Q) (x : A) (l : list A) : list A :=
  match l with
  | [] => [x]
  | y :: l' =>
      if Qle_bool (key y) (key x) then x :: l
      else y :: insert_desc key x l'
  end.

Fixpoint sort_desc {A : Type} (key : A -> Q) (l : list A) : list A :=
  match l with
  | [] => []
  | x :: l' => insert_desc key x (sort_desc key l')
  end.

(** Each entry with its position. *)
Definition indexed {A : Type} (l : list A) : list (nat * A) :=
  combine (seq 0 (length l)) l.

(** [tf.nn.top_k(values, k)]: the [k] largest entries in decreasing order
    with their positions; of two equal entries the one with the lower index
    comes first.  [k] must not be negative and [values] must have at least
    [k] entries. *)
Definition top_k (values : list Q) (k : Z) : result (list Q * list nat) :=
  if (k <? 0)%Z then Err OpError
  else if (Z.of_nat (length values) <? k)%Z then Err OpError
  else
    let best := firstn (Z.to_nat k) (sort_desc snd (indexed values)) in
    Ok (map snd best, map fst best).

(** Intersection over union as the non-max-suppression kernel computes it: the
    corners of each box are put in order first, a box without area overlaps
    nothing. *)
Definition iou (a b : box) : Q :=
  let '(a1, a2, a3, a4) := a in
  let '(b1, b2, b3, b4) := b in
  let ymin_a := Qmin a1 a3 in let xmin_a := Qmin a2 a4 in
  let ymax_a := Qmax a1 a3 in let xmax_a := Qmax a2 a4 in
  let ymin_b := Qmin b1 b3 in let xmin_b := Qmin b2 b4 in
  let ymax_b := Qmax b1 b3 in let xmax_b := Qmax b2 b4 in
  let area_a := (ymax_a - ymin_a) * (xmax_a - xmin_a) in
  let area_b := (ymax_b - ymin_b) * (xmax_b - xmin_b) in
  if Qle_bool area_a 0 || Qle_bool area_b 0 then 0
  else
    let iymin := Qmax ymin_a ymin_b in
    let ixmin := Qmax xmin_a xmin_b in
    let iymax := Qmin ymax_a ymax_b in
    let ixmax := Qmin xmax_a xmax_b in
    let inter := Qmax (iymax - iymin) 0 * Qmax (ixmax - ixmin) 0 in
    inter / (area_a + area_b - inter).

(** The kernel's test: a candidate is dropped when its overlap with a box
    already selected is greater than the threshold. *)
Definition iou_greater_than_threshold (a b : box) (iou_threshold : Q) : bool :=
  Qlt_bool iou_threshold (iou a b).

(** A candidate of the suppression: the index of a box, the box, its score. *)
Definition candidate : Type := (nat * (box * Q))%type.

Definition cand_index (c : candidate) : nat := fst c.
Definition cand_box (c : candidate) : box := fst (snd c).
Definition cand_score (c : candidate) : Q := snd (snd c).

(** The greedy loop of the kernel over the candidates in decreasing score
    order.  [selected] holds the candidates kept so far, the latest first. *)
Fixpoint nms_loop (iou_threshold : Q) (output_size : nat)
    (candidates selected : list candidate) : list candidate :=
  match candidates with
  | [] => rev selected
  | c :: candidates' =>
      if (output_size <=? length selected)%nat then rev selected
      else if existsb
                (fun s => iou_greater_than_threshold
                            (cand_box c) (cand_box s) iou_threshold)
                selected
      then nms_loop iou_threshold output_size candidates' selected
      else nms_loop iou_threshold output_size candidates' (c :: selected)
  end.

(** [tf.image.non_max_suppression(boxes, scores, max_output_size,
    iou_threshold)]: the indices of the boxes kept, in decreasing score
    order, boxes of equal score in the order of their indices.
    [max_output_size], a Python integer, becomes an int32 tensor.  When it
    runs, the op rejects a threshold outside [0,1], a negative
    [max_output_size] and a score vector that does not have one score per
    box. *)
Definition non_max_suppression (boxes : list box) (scores : list Q)
    (max_output_size : Z) (iou_threshold : Q) : result (list nat) :=
  max_output_size <- int32 max_output_size ;;
  if negb (Qle_bool 0 iou_threshold && Qle_bool iou_threshold 1) then Err OpError
  else if (max_output_size <? 0)%Z then Err OpError
  else if negb (Nat.eqb (length boxes) (length scores)) then Err OpError
  else
    let output_size := Nat.min (Z.to_nat max_output_size) (length boxes) in
    let candidates : list candidate :=
      sort_desc cand_score (indexed (combine boxes scores)) in
    Ok (map cand_index (nms_loop iou_threshold output_size candidates [])).

End TF.

(** ** The box helpers of [luminoth.utils.bbox_transform_tf] *)

Module BBox.

Section Decode.

(** The exponential of the float library.  Nothing is assumed of it here;
    the theorems that need [exp 0 = 1] say so. *)
Variable exp : Q -> Q.

(** Modelled from the spec: [decode] of [luminoth.utils.bbox_transform_tf],
    which [_build] imports, is not among the sources.  The proposal is the
    reference box with centre [(cx, cy)] and size [(w, h)], the size being
    the difference of the two corners; the delta
    [(dx, dy, dw, dh)] moves the centre by [dx * w] and [dy * h] and scales
    the size by [exp dw] and [exp dh]; the corners are rebuilt from the new
    centre and size.  The tensors hold floats: the result of each operation
    is rounded. *)
Definition decode_box (roi deltas : box) : box :=
  let '(x_min, y_min, x_max, y_max) := roi in
  let '(dx, dy, dw, dh) := deltas in
  let w := float32 (x_max - x_min) in
  let h := float32 (y_max - y_min) in
  let cx := float32 (x_min + float32 (w / 2)) in
  let cy := float32 (y_min + float32 (h / 2)) in
  let cx' := float32 (cx + float32 (dx * w)) in
  let cy' := float32 (cy + float32 (dy * h)) in
  let w' := float32 (w * exp dw) in
  let h' := float32 (h * exp dh) in
  (float32 (cx' - float32 (w' / 2)), float32 (cy' - float32 (h' / 2)),
   float32 (cx' + float32 (w' / 2)), float32 (cy' + float32 (h' / 2))).

(** A row of four columns as a box. *)
Definition row4 (r : list Q) : result box :=
  match r with
  | [a; b; c; d] => Ok (a, b, c, d)
  | _ => Err OpError
  end.

(** The decoder works column by column on two tensors of four columns with
    the same number of rows. *)
Fixpoint decode (roi deltas : list (list Q)) : result (list box) :=
  match roi, deltas with
  | [], [] => Ok []
  | r :: roi', d :: deltas' =>
      r4 <- row4 r ;;
      d4 <- row4 d ;;
      bs <- decode roi' deltas' ;;
      Ok (decode_box r4 d4 :: bs)
  | _, _ => Err OpError
  end.

End Decode.

(** Modelled from the spec: [clip_boxes] of the same missing module.  Each
    coordinate is clamped on its own, x to [0, width - 1] and y to
    [0, height - 1]; [im_shape] is (height, width). *)
Definition clamp (v hi : Q) : Q := Qmax (Qmin v hi) 0.

Definition clip_box (im_shape : Q * Q) (b : box) : box :=
  let '(height, width) := im_shape in
  let '(x_min, y_min, x_max, y_max) := b in
  (clamp x_min (width - 1), clamp y_min (height - 1),
   clamp x_max (width - 1), clamp y_max (height - 1)).

Definition clip_boxes (bboxes : list box) (im_shape : Q * Q) : list box :=
  map (clip_box im_shape) bboxes.

(** Modelled from the spec: [change_order] of the same missing module.  It
    goes from the convention of the repository to the one of TensorFlow
    (comment at line 141) and back (comment at line 180): the two coordinates
    of each corner change places. *)
Definition change_order_box (b : box) : box :=
  let '(first_min, second_min, first_max, second_max) := b in
  (second_min, first_min, second_max, first_max).

Definition change_order (bboxes : list box) : list box :=
  map change_order_box bboxes.

End BBox.

(** ** The module [RCNNProposal] *)

Module RCNNProposal.

Import TF BBox.

(** The configuration object read by [__init__]; [min_prob_threshold] may be
    absent ([None]). *)
Record config : Type := {
  class_max_detections : Z;
  class_nms_threshold : Q;
  total_max_detections : Z;
  min_prob_threshold : option Q
}.

(** The attributes of the instance. *)
Record t : Type := {
  _num_classes : nat;
  _class_max_detections : Z;
  _class_nms_threshold : Q;
  _total_max_detections : Z;
  _min_prob_threshold : Q
}.

(** [__init__] (lines 26-42) copies the configuration; [x or 0.0] is [0.0]
    when [x] is [None] or zero. *)
Definition __init__ (num_classes : nat) (cfg : config) : t :=
  {| _num_classes := num_classes;
     _class_max_detections := class_max_detections cfg;
     _class_nms_threshold := class_nms_threshold cfg;
     _total_max_detections := total_max_detections cfg;
     _min_prob_threshold :=
       match min_prob_threshold cfg with
       | Some x => if Qeq_bool x 0 then 0 else x
       | None => 0
       end |}.

(** The dictionary [_build] returns. *)
Record output : Type := {
  raw_objects : list box;
  objects : list box;
  proposal_label : list Z;
  proposal_label_prob : list Q;
  selected_boxes : list (list box);
  selected_probs : list (list Q);
  selected_labels : list (list Z)
}.

Section Build.

Variable exp : Q -> Q.
Variable self : t.

(** Lines 69-71.  [tf.equal] only computes a boolean that nothing reads; the
    slice drops the first column whatever the number of columns. *)
Definition strip_batch_id (proposals : list (list Q)) : list (list Q) :=
  map (skipn 1) proposals.

(** Lines 75-87, for one row of [cls_prob]. *)
Definition label_of (row : list Q) : result Z :=
  i <- argmax row ;; Ok (i - 1)%Z.

Definition proposal_filter (labels : list Z) (probs : list Q) : list bool :=
  let non_background_filter := map (fun l => (0 <=? l)%Z) labels in
  let min_prob_filter := map (fun p => Qle_bool (_min_prob_threshold self) p) probs in
  logical_and non_background_filter min_prob_filter.

(** Lines 73-101: the label and probability of every proposal, then the
    four co-indexed tensors masked by the same filter. *)
Definition label_assignment (proposals bbox_pred cls_prob : list (list Q))
    : result (list (list Q) * list Z * list Q * list (list Q)) :=
  proposal_label <- mapM label_of cls_prob ;;
  proposal_label_prob <- mapM reduce_max cls_prob ;;
  let filter := proposal_filter proposal_label proposal_label_prob in
  _ <- assert_equal (length proposals) (length bbox_pred) ;;
  proposals <- boolean_mask proposals filter ;;
  proposal_label <- boolean_mask proposal_label filter ;;
  proposal_label_prob <- boolean_mask proposal_label_prob filter ;;
  bbox_pred <- boolean_mask bbox_pred filter ;;
  Ok (proposals, proposal_label, proposal_label_prob, bbox_pred).

(** Lines 103-120: the delta of the assigned class of every row. *)
Definition gather_deltas (proposal_label : list Z) (bbox_pred : list (list Q))
    : result (list (list Q)) :=
  let label_one_hot := one_hot proposal_label (_num_classes self) in
  let label_one_hot_flatten := flatten label_one_hot in
  bbox_pred_flatten <- reshape_4 bbox_pred ;;
  _ <- assert_equal (length bbox_pred_flatten) (length label_one_hot_flatten) ;;
  boolean_mask bbox_pred_flatten label_one_hot_flatten.

(** Lines 127-132, for one clipped box. *)
Definition object_filter (b : box) : bool :=
  let '(x_min, y_min, x_max, y_max) := b in
  Qle_bool 0 (Qmax (x_max - x_min) 0 * Qmax (y_max - y_min) 0).

(** Lines 127-139. *)
Definition validity_filter (clipped_objects : list box)
    (proposal_label : list Z) (proposal_label_prob : list Q)
    : result (list box * list Z * list Q) :=
  let filter := map object_filter clipped_objects in
  objects <- boolean_mask clipped_objects filter ;;
  proposal_label <- boolean_mask proposal_label filter ;;
  proposal_label_prob <- boolean_mask proposal_label_prob filter ;;
  Ok (objects, proposal_label, proposal_label_prob).

(** Lines 151-175: the body of the loop over the classes. *)
Definition class_nms (objects_tf : list box) (proposal_label : list Z)
    (proposal_label_prob : list Q) (class_id : nat)
    : result (list box * list Q * list Z) :=
  let class_filter := map (fun l => Z.eqb l (Z.of_nat class_id)) proposal_label in
  class_objects_tf <- boolean_mask objects_tf class_filter ;;
  class_prob <- boolean_mask proposal_label_prob class_filter ;;
  class_selected_idx <-
    non_max_suppression class_objects_tf class_prob
      (_class_max_detections self) (_class_nms_threshold self) ;;
  class_objects_tf <- gather class_objects_tf class_selected_idx ;;
  class_prob <- gather class_prob class_selected_idx ;;
  Ok (class_objects_tf, class_prob,
      tile (Z.of_nat class_id) (length class_selected_idx)).

(** Lines 146-175: the loop, one entry per class in the three lists. *)
Definition per_class_nms (objects_tf : list box) (proposal_label : list Z)
    (proposal_label_prob : list Q)
    : result (list (list box) * list (list Q) * list (list Z)) :=
  per_class <- mapM (class_nms objects_tf proposal_label proposal_label_prob)
                    (seq 0 (_num_classes self)) ;;
  Ok (map (fun r => fst (fst r)) per_class,
      map (fun r => snd (fst r)) per_class,
      map snd per_class).

(** Lines 177-193: the concatenation and the [k] most probable detections.
    [tf.minimum] takes [total_max_detections], a Python integer, as an int32
    tensor like the entry of [tf.shape] it is compared with. *)
Definition top_k_selection (selected_boxes : list (list box))
    (selected_probs : list (list Q)) (selected_labels : list (list Z))
    : result (list box * list Z * list Q) :=
  objects_tf <- concat0 selected_boxes ;;
  let objects := change_order objects_tf in
  proposal_label <- concat0 selected_labels ;;
  proposal_label_prob <- concat0 selected_probs ;;
  total_max_detections <- int32 (_total_max_detections self) ;;
  let k := Z.min total_max_detections
                 (Z.of_nat (length proposal_label_prob)) in
  '(values, indices) <- top_k proposal_label_prob k ;;
  top_k_objects <- gather objects indices ;;
  top_k_proposal_label <- gather proposal_label indices ;;
  Ok (top_k_objects, top_k_proposal_label, values).

(** Everything before the loop over the classes, lines 69-144. *)
Definition before_nms (proposals bbox_pred cls_prob : list (list Q))
    (im_shape : Q * Q) : result (list box * list box * list Z * list Q) :=
  let proposals := strip_batch_id proposals in
  '(proposals, proposal_label, proposal_label_prob, bbox_pred) <-
    label_assignment proposals bbox_pred cls_prob ;;
  bbox_pred <- gather_deltas proposal_label bbox_pred ;;
  raw_objects <- decode exp proposals bbox_pred ;;
  let clipped_objects := clip_boxes raw_objects im_shape in
  '(objects, proposal_label, proposal_label_prob) <-
    validity_filter clipped_objects proposal_label proposal_label_prob ;;
  Ok (raw_objects, change_order objects, proposal_label, proposal_label_prob).

(** [_build] (lines 44-203). *)
Definition _build (proposals bbox_pred cls_prob : list (list Q))
    (im_shape : Q * Q) : result output :=
  '(raw_objects, objects_tf, proposal_label, proposal_label_prob) <-
    before_nms proposals bbox_pred cls_prob im_shape ;;
  '(selected_boxes, selected_probs, selected_labels) <-
    per_class_nms objects_tf proposal_label proposal_label_prob ;;
  '(top_k_objects, top_k_proposal_label, top_k_proposal_label_prob) <-
    top_k_selection selected_boxes selected_probs selected_labels ;;
  Ok {| raw_objects := raw_objects;
        objects := top_k_objects;
        proposal_label := top_k_proposal_label;
        proposal_label_prob := top_k_proposal_label_prob;
        selected_boxes := selected_boxes;
        selected_probs := selected_probs;
        selected_labels := selected_labels |}.

End Build.

End RCNNProposal.

(** * Vocabulary of the properties *)

Import TF BBox RCNNProposal.

(** [i] is the position of the largest entry of [row], the first one when
    there are several. *)
Definition is_first_argmax (row : list Q) (i : nat) : Prop :=
  (i < length row)%nat /\
  (forall j, (j < length row)%nat -> nth j row 0 <= nth i row 0) /\
  (forall j, (j < i)%nat -> nth j row 0 < nth i row 0).

(** [m] is the largest entry of [row]. *)
Definition is_maximum (row : list Q) (m : Q) : Prop :=
  In m row /\ forall x, In x row -> x <= m.

(** The label and the probability of a row that is not empty. *)
Definition label_fn (row : list Q) : Z :=
  match row with
  | [] => 0
  | x :: row' => Z.of_nat (argmax_from x 0 1 row') - 1
  end.

Definition prob_fn (row : list Q) : Q :=
  match row with
  | [] => 0
  | x :: row' => reduce_max_from x row'
  end.

(** The rows of the label-assignment stage: a proposal, its label, its
    probability and its block of deltas. *)
Definition assigned_row : Type := (list Q * (Z * (Q * list Q)))%type.

Definition row_proposal (r : assigned_row) : list Q := fst r.
Definition row_label (r : assigned_row) : Z := fst (snd r).
Definition row_prob (r : assigned_row) : Q := fst (snd (snd r)).
Definition row_deltas (r : assigned_row) : list Q := snd (snd (snd r)).

Definition assigned_rows (proposals : list (list Q)) (labels : list Z)
    (probs : list Q) (bbox_pred : list (list Q)) : list assigned_row :=
  combine proposals (combine labels (combine probs bbox_pred)).

(** The test of lines 80-87 on one row. *)
Definition survives (self : t) (r : assigned_row) : bool :=
  (0 <=? row_label r)%Z && Qle_bool (_min_prob_threshold self) (row_prob r).

(** A rational stand-in for the float exponential in the examples: the first
    terms of its series, in lowest terms.  It is exact at 0, the only
    argument the examples give it. *)
Definition exp_series (x : Q) : Q := Qred (1 + x + x * x / 2 + x * x * x / 6).

(** The concrete scenario of the specification: an image of 100 by 100, three
    proposals with batch tag 0, two foreground classes, all deltas zero. *)
Module Scenario.

Definition cfg : config :=
  {| class_max_detections := 10;
     class_nms_threshold := 3 # 10;
     total_max_detections := 5;
     min_prob_threshold := Some (5 # 10) |}.

Definition self : t := __init__ 2 cfg.

Definition proposals : list (list Q) :=
  [[0; 0; 0; 10; 10]; [0; 1; 1; 11; 11]; [0; 50; 50; 60; 60]].

Definition bbox_pred : list (list Q) :=
  [[0; 0; 0; 0; 0; 0; 0; 0]; [0; 0; 0; 0; 0; 0; 0; 0]; [0; 0; 0; 0; 0; 0; 0; 0]].

Definition cls_prob : list (list Q) :=
  [[1 # 10; 8 # 10; 1 # 10]; [1 # 10; 75 # 100; 15 # 100]; [5 # 100; 5 # 100; 9 # 10]].

Definition im_shape : Q * Q := (100, 100).

End Scenario.

(** Decreasing order of floats. *)
Definition descending (l : list Q) : Prop :=
  StronglySorted (fun p q => q <= p) l.

(** Two proposals of one class whose overlap is exactly the threshold: the
    boxes (0,0,3,1) and (1,0,4,1) share 2 of the 4 units of area they cover
    together, and the threshold is 1/2. *)
Module Tie.

Definition cfg : config :=
  {| class_max_detections := 10;
     class_nms_threshold := 1 # 2;
     total_max_detections := 5;
     min_prob_threshold := None |}.

Definition self : t := __init__ 1 cfg.

Definition proposals : list (list Q) := [[0; 0; 0; 3; 1]; [0; 1; 0; 4; 1]].

Definition bbox_pred : list (list Q) := [[0; 0; 0; 0]; [0; 0; 0; 0]].

Definition cls_prob : list (list Q) := [[1 # 10; 9 # 10]; [2 # 10; 8 # 10]].

Definition im_shape : Q * Q := (100, 100).

End Tie.

(** Two proposals and two blocks of deltas, but one row of probabilities. *)
Module Truncation.

Definition proposals : list (list Q) := [[0; 0; 0; 10; 10]; [0; 50; 50; 60; 60]].

Definition bbox_pred : list (list Q) :=
  [[0; 0; 0; 0; 0; 0; 0; 0]; [0; 0; 0; 0; 0; 0; 0; 0]].

Definition cls_prob : list (list Q) := [[1 # 10; 8 # 10; 1 # 10]].

End Truncation.

(** One proposal with six columns instead of five. *)
Module Wide.

Definition proposals : list (list Q) := [[0; 0; 0; 10; 10; 7]].

Definition bbox_pred : list (list Q) := [[0; 0; 0; 0; 0; 0; 0; 0]].

Definition cls_prob : list (list Q) := [[1 # 10; 8 # 10; 1 # 10]].

End Wide.

(** The configuration of the scenario with [total_max_detections] set to 0. *)
Module ZeroCap.

Definition cfg : config :=
  {| class_max_detections := 10;
     class_nms_threshold := 3 # 10;
     total_max_detections := 0;
     min_prob_threshold := Some (5 # 10) |}.

End ZeroCap.

(** The configuration of the scenario with a threshold of 3/2. *)
Module BadThreshold.

Definition cfg : config :=
  {| class_max_detections := 10;
     class_nms_threshold := 3 # 2;
     total_max_detections := 5;
     min_prob_threshold := Some (5 # 10) |}.

End BadThreshold.






(** A detection: a box, its label, its probability. *)
Definition detection : Type := (box * (Z * Q))%type.

Definition det_box (d : detection) : box := fst d.
Definition det_label (d : detection) : Z := fst (snd d).
Definition det_prob (d : detection) : Q := snd (snd d).


(** Rows of probabilities that assign the labels 1 and 0 and the
    probabilities 0.9 and 0.8 of the output of the scenario. *)
Module Rerun.

Definition cls_prob : list (list Q) := [[0; 0; 9 # 10]; [0; 8 # 10; 0]].

End Rerun.

(** One proposal whose corners are the floats nearest to 19.3 and 100, of
    the first class with probability 0.8, in an image of 50 by 50; and the
    rows of probabilities that assign that label and probability again. *)
Module Drift.

Definition proposals : list (list Q) :=
  [[0; float32 (193 # 10); float32 (193 # 10); 100; 100]].

Definition bbox_pred : list (list Q) := [[0; 0; 0; 0; 0; 0; 0; 0]].

Definition cls_prob : list (list Q) := [[1 # 10; 8 # 10; 1 # 10]].


Definition im_shape : Q * Q := (50, 50).

End Drift.

(** The selections of the classes in one list, each a box (in TensorFlow's
    convention) and its probability, with the class it was selected for;
    [c] is the class of the first entry of the two lists. *)
Fixpoint tag_from (c : nat) (sb : list (list box)) (sp : list (list Q))
    : list (nat * (box * Q)) :=
  match sb, sp with
  | bs :: sb', ps :: sp' => map (pair c) (combine bs ps) ++ tag_from (S c) sb' sp'
  | _, _ => []
  end.

Definition class_detections (out : output) : list (nat * (box * Q)) :=
  tag_from 0 (selected_boxes out) (selected_probs out).

(** The columns of class [l] in a row of [bbox_pred], which holds four
    columns for each class. *)
Definition class_deltas (l : Z) (row : list Q) : list Q :=
  firstn 4 (skipn (4 * Z.to_nat l) row).

(** A row of [4 * n] columns cut in [n] rows of four. *)
Fixpoint chunks (n : nat) (row : list Q) : list (list Q) :=
  match n with
  | O => []
  | S n' => firstn 4 row :: chunks n' (skipn 4 row)
  end.

(** * Properties *)

(** ** Comparisons of floats *)

Lemma Qlt_bool_iff (x y : Q) : Qlt_bool x y = true <-> x < y.
Proof.
  unfold Qlt_bool. rewrite negb_true_iff. split; intro H.
  - apply Qnot_le_lt. intro L. apply Qle_bool_iff in L. congruence.
  - destruct (Qle_bool y x) eqn:E; [|reflexivity].
    apply Qle_bool_iff in E. lra.
Qed.

Lemma Qlt_bool_false_iff (x y : Q) : Qlt_bool x y = false <-> y <= x.
Proof.
  unfold Qlt_bool. rewrite negb_false_iff. apply Qle_bool_iff.
Qed.

Lemma Qle_bool_false_iff (x y : Q) : Qle_bool x y = false <-> y < x.
Proof.
  rewrite <- Qlt_bool_iff. unfold Qlt_bool.
  destruct (Qle_bool x y); simpl; intuition congruence.
Qed.

(** ** The error monad *)

Lemma bind_Ok_inv {A B : Type} (c : result A) (k : A -> result B) (b : B) :
  bind c k = Ok b -> exists a, c = Ok a /\ k a = Ok b.
Proof.
  destruct c as [a|e]; simpl; intro H; [eauto | discriminate].
Qed.

(** Splits a hypothesis [x <- c ;; k = Ok b] into [c = Ok x] and
    [k x = Ok b]. *)
Ltac bind_inv H x E :=
  apply bind_Ok_inv in H; destruct H as [x [E H]].

(** ** The conversion of a Python integer *)

Lemma int32_Ok (z z' : Z) :
  int32 z = Ok z' -> z' = z /\ (-2147483648 <= z <= 2147483647)%Z.
Proof.
  unfold int32.
  destruct (Z.leb_spec (-2147483648) z) as [L|L],
           (Z.leb_spec z 2147483647) as [U|U];
    cbn [andb]; intro E; try discriminate.
  injection E as <-. split; [reflexivity | lia].
Qed.

Lemma int32_in_range (z : Z) :
  (-2147483648 <= z <= 2147483647)%Z -> int32 z = Ok z.
Proof.
  intro H. unfold int32.
  destruct (Z.leb_spec (-2147483648) z) as [L|L],
           (Z.leb_spec z 2147483647) as [U|U];
    cbn [andb]; try reflexivity; lia.
Qed.


Lemma mapM_Ok_length {A B : Type} (f : A -> result B) (l : list A) (r : list B) :
  mapM f l = Ok r -> length r = length l.
Proof.
  revert r. induction l as [|x l IH]; simpl; intros r H.
  - injection H as <-. reflexivity.
  - destruct (f x) as [y|e]; [|discriminate]. simpl in H.
    destruct (mapM f l) as [ys|e]; [|discriminate]. simpl in H.
    injection H as <-. simpl. f_equal. apply IH. reflexivity.
Qed.

Lemma mapM_Ok_Forall2 {A B : Type} (f : A -> result B) (l : list A) (r : list B) :
  mapM f l = Ok r -> Forall2 (fun x y => f x = Ok y) l r.
Proof.
  revert r. induction l as [|x l IH]; simpl; intros r H.
  - injection H as <-. constructor.
  - destruct (f x) as [y|e] eqn:E; [|discriminate]. simpl in H.
    destruct (mapM f l) as [ys|e]; [|discriminate]. simpl in H.
    injection H as <-. constructor; auto.
Qed.

Lemma mapM_total {A B : Type} (f : A -> result B) (g : A -> B) (l : list A) :
  Forall (fun x => f x = Ok (g x)) l -> mapM f l = Ok (map g l).
Proof.
  induction 1 as [|x l Hx _ IH]; simpl; [reflexivity|].
  rewrite Hx, IH. reflexivity.
Qed.

(** ** Gathering and masking *)

Lemma gather_map {A C : Type} (t : list A) (sel : list C)
    (ix : C -> nat) (g : C -> A) :
  Forall (fun c => nth_error t (ix c) = Some (g c)) sel ->
  gather t (map ix sel) = Ok (map g sel).
Proof.
  induction 1 as [|c sel Hc _ IH]; [reflexivity|].
  unfold gather in *. simpl. rewrite Hc, IH. reflexivity.
Qed.

Lemma gather_Ok_length {A : Type} (t : list A) (idx : list nat) (r : list A) :
  gather t idx = Ok r -> length r = length idx.
Proof. apply mapM_Ok_length. Qed.

(** Masking co-indexed columns of the same rows by a predicate on the rows is
    filtering the rows. *)
Lemma gather_where_from {A B : Type} (g : A -> B) (f : A -> bool)
    (pre rows : list A) :
  gather (map g (pre ++ rows)) (where_from (length pre) (map f rows))
  = Ok (map g (filter f rows)).
Proof.
  revert pre. induction rows as [|x rows IH]; intro pre; simpl; [reflexivity|].
  assert (T : gather (map g (pre ++ x :: rows))
                     (where_from (S (length pre)) (map f rows))
              = Ok (map g (filter f rows))).
  { specialize (IH (pre ++ [x])). rewrite <- app_assoc in IH. simpl in IH.
    rewrite length_app in IH. simpl in IH.
    replace (length pre + 1)%nat with (S (length pre)) in IH by lia. exact IH. }
  destruct (f x); [|exact T].
  unfold gather in *. simpl. rewrite T.
  rewrite map_app. rewrite nth_error_app2; rewrite length_map; [|lia].
  rewrite Nat.sub_diag. reflexivity.
Qed.

Lemma boolean_mask_map {A B : Type} (g : A -> B) (f : A -> bool) (rows : list A) :
  boolean_mask (map g rows) (map f rows) = Ok (map g (filter f rows)).
Proof.
  exact (gather_where_from g f [] rows).
Qed.

Lemma boolean_mask_all_true {A : Type} (t : list A) (mask : list bool) :
  length mask = length t -> Forall (fun b => b = true) mask ->
  boolean_mask t mask = Ok t.
Proof.
  intros L T.
  assert (E : mask = map (fun _ => true) t).
  { revert t L. induction T as [|b mask Hb _ IH]; intros [|x t] L;
      simpl in *; try discriminate; [reflexivity|].
    subst b. f_equal. apply IH. lia. }
  assert (F : filter (fun _ : A => true) t = t).
  { clear. induction t; simpl; [reflexivity | f_equal; auto]. }
  rewrite E. pose proof (boolean_mask_map (fun x => x) (fun _ => true) t) as M.
  rewrite F, map_id in M. exact M.
Qed.

(** ** Label assignment *)

Lemma argmax_from_spec (row pre : list Q) (best : Q) (besti : nat) :
  (besti < length pre)%nat ->
  nth besti pre 0 = best ->
  (forall j, (j < length pre)%nat -> nth j pre 0 <= best) ->
  (forall j, (j < besti)%nat -> nth j pre 0 < best) ->
  is_first_argmax (pre ++ row) (argmax_from best besti (length pre) row) /\
  nth (argmax_from best besti (length pre) row) (pre ++ row) 0
  = reduce_max_from best row.
Proof.
  revert pre best besti.
  induction row as [|x row IH]; intros pre best besti Hi Hb Hle Hlt; simpl.
  - rewrite app_nil_r. repeat split; auto.
    + rewrite Hb. exact Hle.
    + rewrite Hb. exact Hlt.
  - replace (pre ++ x :: row) with ((pre ++ [x]) ++ row)
      by (rewrite <- app_assoc; reflexivity).
    replace (S (length pre)) with (length (pre ++ [x]))
      by (rewrite length_app; simpl; lia).
    assert (Hx : nth (length pre) (pre ++ [x]) 0 = x).
    { rewrite app_nth2 by lia. rewrite Nat.sub_diag. reflexivity. }
    assert (Hold : forall j, (j < length pre)%nat ->
                             nth j (pre ++ [x]) 0 = nth j pre 0).
    { intros j Hj. apply app_nth1. exact Hj. }
    assert (Hcase : forall j, (j < length (pre ++ [x]))%nat ->
                              (j < length pre)%nat \/ j = length pre).
    { intros j. rewrite length_app. simpl. lia. }
    destruct (Qlt_bool best x) eqn:E.
    + apply Qlt_bool_iff in E.
      assert (R := IH (pre ++ [x]) x (length pre)). rewrite length_app in R.
      simpl in R. rewrite length_app. simpl. apply R; clear R.
      * lia.
      * exact Hx.
      * intros j Hj. destruct (Hcase j) as [Hj'| ->].
        { rewrite length_app. simpl. exact Hj. }
        { rewrite Hold by exact Hj'. specialize (Hle j Hj'). lra. }
        { rewrite Hx. lra. }
      * intros j Hj. rewrite Hold by exact Hj. specialize (Hle j Hj). lra.
    + apply Qlt_bool_false_iff in E.
      apply IH.
      * rewrite length_app. simpl. lia.
      * rewrite Hold by exact Hi. exact Hb.
      * intros j Hj. destruct (Hcase j Hj) as [Hj'| ->].
        { rewrite Hold by exact Hj'. auto. }
        { rewrite Hx. exact E. }
      * intros j Hj. rewrite Hold by lia. auto.
Qed.

Lemma reduce_max_from_spec (row : list Q) (best : Q) :
  is_maximum (best :: row) (reduce_max_from best row).
Proof.
  revert best. induction row as [|x row IH]; intro best; simpl.
  - split; [left; reflexivity|]. intros y [<-|[]]. lra.
  - destruct (Qlt_bool best x) eqn:E.
    + apply Qlt_bool_iff in E. destruct (IH x) as [Hin Hmax]. split.
      * right. exact Hin.
      * intros y [<-|Hy]; [|auto]. specialize (Hmax x (or_introl eq_refl)). lra.
    + apply Qlt_bool_false_iff in E. destruct (IH best) as [Hin Hmax]. split.
      * destruct Hin as [<-|Hin]; [left; reflexivity | right; right; exact Hin].
      * intros y [<-|[<-|Hy]].
        { apply Hmax. left. reflexivity. }
        { specialize (Hmax best (or_introl eq_refl)). lra. }
        { apply Hmax. right. exact Hy. }
Qed.

Lemma label_of_nonempty (row : list Q) :
  row <> [] -> label_of row = Ok (label_fn row).
Proof. destruct row; [congruence | reflexivity]. Qed.

Lemma reduce_max_nonempty (row : list Q) :
  row <> [] -> reduce_max row = Ok (prob_fn row).
Proof. destruct row; [congruence | reflexivity]. Qed.

Lemma label_fn_spec (row : list Q) :
  row <> [] ->
  exists i, is_first_argmax row i /\ label_fn row = (Z.of_nat i - 1)%Z /\
            nth i row 0 = prob_fn row.
Proof.
  destruct row as [|x row]; [congruence|]. intros _.
  exists (argmax_from x 0 1 row).
  destruct (argmax_from_spec row [x] (best:=x) (besti:=0)) as [A M]; simpl.
  - lia.
  - reflexivity.
  - intros [|[|j]] Hj; simpl in *; try lia. lra.
  - intros j Hj. lia.
  - simpl in A, M. repeat split; auto; apply A.
Qed.

Lemma prob_fn_spec (row : list Q) : row <> [] -> is_maximum row (prob_fn row).
Proof.
  destruct row as [|x row]; [congruence|]. intros _.
  apply reduce_max_from_spec.
Qed.

Lemma survives_iff (self : t) (r : assigned_row) :
  survives self r = true <->
  (0 <= row_label r)%Z /\ _min_prob_threshold self <= row_prob r.
Proof.
  unfold survives. rewrite andb_true_iff, Z.leb_le, Qle_bool_iff. reflexivity.
Qed.

Lemma assigned_rows_columns (self : t) (proposals : list (list Q))
    (labels : list Z) (probs : list Q) (bbox_pred : list (list Q)) :
  length labels = length proposals ->
  length probs = length proposals ->
  length bbox_pred = length proposals ->
  let rows := assigned_rows proposals labels probs bbox_pred in
  proposals = map row_proposal rows /\ labels = map row_label rows /\
  probs = map row_prob rows /\ bbox_pred = map row_deltas rows /\
  proposal_filter self labels probs = map (survives self) rows.
Proof.
  revert labels probs bbox_pred.
  induction proposals as [|p proposals IH];
    intros [|l labels] [|q probs] [|b bbox_pred]; simpl; try discriminate.
  - intros _ _ _. repeat split.
  - intros Hl Hq Hb.
    destruct (IH labels probs bbox_pred) as (E1 & E2 & E3 & E4 & E5);
      try lia.
    unfold assigned_rows in *. simpl in *.
    repeat split; try (f_equal; assumption).
    unfold proposal_filter, logical_and in *. simpl. f_equal. exact E5.
Qed.

(** With one row per proposal in the three tensors, the stage is a filter on
    the rows. *)
Lemma label_assignment_filter (self : t)
    (proposals bbox_pred cls_prob : list (list Q)) :
  length proposals = length cls_prob ->
  length bbox_pred = length cls_prob ->
  Forall (fun row => row <> []) cls_prob ->
  let kept := filter (survives self)
                (assigned_rows proposals (map label_fn cls_prob)
                               (map prob_fn cls_prob) bbox_pred) in
  label_assignment self proposals bbox_pred cls_prob
  = Ok (map row_proposal kept, map row_label kept,
        map row_prob kept, map row_deltas kept).
Proof.
  intros LP LB NE kept. unfold label_assignment.
  rewrite (mapM_total label_of label_fn)
    by (eapply Forall_impl; [|exact NE]; apply label_of_nonempty).
  rewrite (mapM_total reduce_max prob_fn)
    by (eapply Forall_impl; [|exact NE]; apply reduce_max_nonempty).
  cbn [bind]. unfold assert_equal.
  replace (length proposals =? length bbox_pred)%nat with true
    by (symmetry; apply Nat.eqb_eq; congruence).
  cbn [bind].
  destruct (assigned_rows_columns self proposals (map label_fn cls_prob)
              (map prob_fn cls_prob) bbox_pred) as (E1 & E2 & E3 & E4 & E5);
    rewrite ?length_map; try congruence.
  set (rows := assigned_rows proposals (map label_fn cls_prob)
                             (map prob_fn cls_prob) bbox_pred) in *.
  rewrite E5.
  pose proof (boolean_mask_map row_proposal (survives self) rows) as M1.
  pose proof (boolean_mask_map row_label (survives self) rows) as M2.
  pose proof (boolean_mask_map row_prob (survives self) rows) as M3.
  pose proof (boolean_mask_map row_deltas (survives self) rows) as M4.
  rewrite <- E1 in M1. rewrite <- E2 in M2. rewrite <- E3 in M3.
  rewrite <- E4 in M4. rewrite M1, M2, M3, M4. reflexivity.
Qed.

(** Claim C2, under the input contract that the three tensors have one row
    per proposal and that a row of probabilities is not empty.  Every row
    gets as label the position of its first largest probability minus one and
    as probability its largest entry; the stage returns, in order and
    co-indexed, exactly the rows whose label is at least 0 and whose
    probability is at least [min_prob_threshold]. *)
Theorem label_assignment_keeps_foreground_above_threshold :
  forall (self : t) (proposals bbox_pred cls_prob : list (list Q)),
    length proposals = length cls_prob ->
    length bbox_pred = length cls_prob ->
    Forall (fun row => row <> []) cls_prob ->
    exists (labels : list Z) (probs : list Q),
      Forall2 (fun row l => exists i, is_first_argmax row i /\
                                      l = (Z.of_nat i - 1)%Z) cls_prob labels /\
      Forall2 is_maximum cls_prob probs /\
      (forall r, survives self r = true <->
                 (0 <= row_label r)%Z /\ _min_prob_threshold self <= row_prob r) /\
      let kept := filter (survives self)
                         (assigned_rows proposals labels probs bbox_pred) in
      label_assignment self proposals bbox_pred cls_prob
      = Ok (map row_proposal kept, map row_label kept,
            map row_prob kept, map row_deltas kept).
Proof.
  intros self proposals bbox_pred cls_prob LP LB NE.
  exists (map label_fn cls_prob), (map prob_fn cls_prob).
  split; [|split; [|split]].
  - clear LP LB. induction NE as [|row cls Hrow _ IH]; simpl; constructor; auto.
    destruct (label_fn_spec Hrow) as (i & A & E & _). eauto.
  - clear LP LB. induction NE as [|row cls Hrow _ IH]; simpl; constructor; auto.
    apply prob_fn_spec. exact Hrow.
  - apply survives_iff.
  - apply label_assignment_filter; assumption.
Qed.

Lemma label_assignment_keeps_foreground_above_threshold_witness :
  exists (labels : list Z) (probs : list Q),
    Forall2 (fun row l => exists i, is_first_argmax row i /\
                                    l = (Z.of_nat i - 1)%Z)
            Scenario.cls_prob labels /\
    Forall2 is_maximum Scenario.cls_prob probs /\
    (forall r, survives Scenario.self r = true <->
               (0 <= row_label r)%Z /\
               _min_prob_threshold Scenario.self <= row_prob r) /\
    let kept := filter (survives Scenario.self)
                       (assigned_rows (strip_batch_id Scenario.proposals)
                                      labels probs Scenario.bbox_pred) in
    label_assignment Scenario.self (strip_batch_id Scenario.proposals)
                     Scenario.bbox_pred Scenario.cls_prob
    = Ok (map row_proposal kept, map row_label kept,
          map row_prob kept, map row_deltas kept).
Proof.
  apply label_assignment_keeps_foreground_above_threshold.
  - reflexivity.
  - reflexivity.
  - repeat constructor; discriminate.
Defined.

(** ** Rows whose largest probability is the background's *)

Lemma argmax_from_keeps_best (row : list Q) (best : Q) (besti i : nat) :
  Forall (fun x => x <= best) row -> argmax_from best besti i row = besti.
Proof.
  revert i. induction row as [|x row IH]; intros i H; simpl; [reflexivity|].
  inversion H as [|? ? Hx Hrow]; subst.
  apply Qlt_bool_false_iff in Hx. rewrite Hx. apply IH. exact Hrow.
Qed.

Lemma assigned_rows_app (P1 P2 : list (list Q)) (L1 L2 : list Z)
    (Q1 Q2 : list Q) (B1 B2 : list (list Q)) :
  length L1 = length P1 -> length Q1 = length P1 -> length B1 = length P1 ->
  assigned_rows (P1 ++ P2) (L1 ++ L2) (Q1 ++ Q2) (B1 ++ B2)
  = assigned_rows P1 L1 Q1 B1 ++ assigned_rows P2 L2 Q2 B2.
Proof.
  revert L1 Q1 B1. unfold assigned_rows.
  induction P1 as [|p P1 IH]; intros [|l L1] [|q Q1] [|b B1]; simpl;
    try discriminate; intros HL HQ HB; [reflexivity|].
  rewrite IH by lia. reflexivity.
Qed.

(** Claim C10.  A row of probabilities whose first entry, the background's,
    is not exceeded by any other entry (a foreground class may tie with it)
    gets the label -1, and whatever the threshold the stage returns what it
    returns on the input without that row, its proposal and its deltas. *)
Theorem background_maximum_row_is_dropped :
  forall (self : t) (P1 P2 B1 B2 C1 C2 : list (list Q))
         (p b rest : list Q) (p0 : Q),
    length P1 = length C1 -> length B1 = length C1 ->
    length P2 = length C2 -> length B2 = length C2 ->
    Forall (fun row => row <> []) (C1 ++ C2) ->
    Forall (fun x => x <= p0) rest ->
    label_of (p0 :: rest) = Ok (-1)%Z /\
    label_assignment self (P1 ++ p :: P2) (B1 ++ b :: B2) (C1 ++ (p0 :: rest) :: C2)
    = label_assignment self (P1 ++ P2) (B1 ++ B2) (C1 ++ C2).
Proof.
  intros self P1 P2 B1 B2 C1 C2 p b rest p0 HP1 HB1 HP2 HB2 NE Hmax.
  assert (Hlab : label_fn (p0 :: rest) = (-1)%Z).
  { simpl. rewrite argmax_from_keeps_best by exact Hmax. reflexivity. }
  split.
  - unfold label_of. simpl. rewrite argmax_from_keeps_best by exact Hmax.
    reflexivity.
  - apply Forall_app in NE. destruct NE as [NE1 NE2].
    rewrite !label_assignment_filter;
      rewrite ?length_app; simpl; try lia;
      try (apply Forall_app; split; [assumption|]);
      try (constructor; [discriminate|]); try assumption.
    rewrite !map_app. cbn [map].
    rewrite !assigned_rows_app by (rewrite ?length_map; lia).
    rewrite !filter_app.
    replace (filter (survives self)
               (assigned_rows (p :: P2) (label_fn (p0 :: rest) :: map label_fn C2)
                  (prob_fn (p0 :: rest) :: map prob_fn C2) (b :: B2)))
      with (filter (survives self)
              (assigned_rows P2 (map label_fn C2) (map prob_fn C2) B2));
      [reflexivity|].
    unfold assigned_rows. cbn [combine filter].
    unfold survives at 2, row_label. cbn [fst snd].
    rewrite Hlab. reflexivity.
Qed.

Lemma background_maximum_row_is_dropped_witness :
  label_of [5 # 10; 5 # 10] = Ok (-1)%Z /\
  label_assignment Scenario.self
    ([[0; 0; 10; 10]] ++ [7; 7; 9; 9] :: [[50; 50; 60; 60]])
    ([[0; 0; 0; 0; 0; 0; 0; 0]] ++ [0; 0; 0; 0; 0; 0; 0; 0]
                                :: [[0; 0; 0; 0; 0; 0; 0; 0]])
    ([[1 # 10; 8 # 10; 1 # 10]] ++ [5 # 10; 5 # 10]
                               :: [[5 # 100; 5 # 100; 9 # 10]])
  = label_assignment Scenario.self
      ([[0; 0; 10; 10]] ++ [[50; 50; 60; 60]])
      ([[0; 0; 0; 0; 0; 0; 0; 0]] ++ [[0; 0; 0; 0; 0; 0; 0; 0]])
      ([[1 # 10; 8 # 10; 1 # 10]] ++ [[5 # 100; 5 # 100; 9 # 10]]).
Proof.
  apply background_maximum_row_is_dropped; try reflexivity.
  - repeat constructor; discriminate.
  - repeat constructor. apply Qle_refl.
Defined.

(** ** The concrete scenario *)

(** Claim C1.  On the scenario of the specification, with an exponential that
    is 1 at 0, [_build] returns the boxes (50,50,60,60) and (0,0,10,10), the
    labels 1 and 0 and the probabilities 0.9 and 0.8, in that order. *)
Theorem scenario_output :
  forall exp : Q -> Q,
    exp 0 = 1 ->
    exists out,
      _build exp Scenario.self Scenario.proposals Scenario.bbox_pred
             Scenario.cls_prob Scenario.im_shape = Ok out /\
      Forall2 box_eq (objects out) [(50, 50, 60, 60); (0, 0, 10, 10)] /\
      proposal_label out = [1; 0]%Z /\
      proposal_label_prob out = [9 # 10; 8 # 10].
Proof.
  intros exp H. eexists. split.
  - unfold _build, before_nms.
    set (la := label_assignment _ _ _ _). vm_compute in la. subst la.
    cbn [bind].
    set (gd := gather_deltas _ _ _). vm_compute in gd. subst gd. cbn [bind].
    cbn [decode row4 bind decode_box]. rewrite !H.
    vm_compute. reflexivity.
  - simpl. split; [|split]; try reflexivity.
    repeat constructor; reflexivity.
Qed.

Lemma scenario_output_witness :
  exp_series 0 = 1 /\
  exists out,
    _build exp_series Scenario.self Scenario.proposals Scenario.bbox_pred
           Scenario.cls_prob Scenario.im_shape = Ok out /\
    Forall2 box_eq (objects out) [(50, 50, 60, 60); (0, 0, 10, 10)] /\
    proposal_label out = [1; 0]%Z /\
    proposal_label_prob out = [9 # 10; 8 # 10].
Proof.
  split; [reflexivity | apply (scenario_output exp_series); reflexivity].
Defined.

(** ** The validity filter *)

(** Claim C5.  A clipped box is kept if and only if
    max(x_max - x_min, 0) * max(y_max - y_min, 0) >= 0; this holds of every
    box, and the stage returns the boxes, labels and probabilities it was
    given. *)
Theorem validity_filter_removes_nothing :
  (forall x_min y_min x_max y_max : Q,
      (object_filter (x_min, y_min, x_max, y_max) = true <->
       0 <= Qmax (x_max - x_min) 0 * Qmax (y_max - y_min) 0) /\
      object_filter (x_min, y_min, x_max, y_max) = true) /\
  (forall (clipped_objects : list box) (labels : list Z) (probs : list Q),
      length labels = length clipped_objects ->
      length probs = length clipped_objects ->
      validity_filter clipped_objects labels probs
      = Ok (clipped_objects, labels, probs)).
Proof.
  assert (T : forall b, object_filter b = true).
  { intros [[[x_min y_min] x_max] y_max]. unfold object_filter.
    apply Qle_bool_iff. apply Qmult_le_0_compat; apply Q.le_max_r. }
  split.
  - intros x_min y_min x_max y_max. split; [|apply T].
    unfold object_filter. apply Qle_bool_iff.
  - intros clipped labels probs HL HP. unfold validity_filter.
    assert (A : Forall (fun b => b = true) (map object_filter clipped)).
    { apply Forall_forall. intros b Hb. apply in_map_iff in Hb.
      destruct Hb as (x & <- & _). apply T. }
    rewrite !boolean_mask_all_true; rewrite ?length_map; auto.
Qed.

Lemma validity_filter_removes_nothing_witness :
  validity_filter [(0, 0, 10, 10); (5, 5, 5, 5)] [0; 1]%Z [8 # 10; 9 # 10]
  = Ok ([(0, 0, 10, 10); (5, 5, 5, 5)], [0; 1]%Z, [8 # 10; 9 # 10]).
Proof.
  apply (proj2 validity_filter_removes_nothing); reflexivity.
Defined.

(** ** Sorting *)

Section SortDesc.

Context {A : Type} (key : A -> Q).

Let ge_key (a b : A) : Prop := key b <= key a.

Lemma insert_desc_perm (x : A) (l : list A) :
  Permutation (insert_desc key x l) (x :: l).
Proof.
  induction l as [|y l IH]; simpl; [reflexivity|].
  destruct (Qle_bool (key y) (key x)); [reflexivity|].
  rewrite IH. apply perm_swap.
Qed.

Lemma sort_desc_perm (l : list A) : Permutation (sort_desc key l) l.
Proof.
  induction l as [|x l IH]; simpl; [reflexivity|].
  rewrite insert_desc_perm. constructor. exact IH.
Qed.

Lemma sort_desc_length (l : list A) : length (sort_desc key l) = length l.
Proof. apply Permutation_length, sort_desc_perm. Qed.

Lemma insert_desc_sorted (x : A) (l : list A) :
  StronglySorted ge_key l -> StronglySorted ge_key (insert_desc key x l).
Proof.
  induction 1 as [|y l Hl IH Hy]; simpl.
  - constructor; constructor.
  - destruct (Qle_bool (key y) (key x)) eqn:E.
    + apply Qle_bool_iff in E. constructor.
      * constructor; assumption.
      * constructor; [exact E|].
        eapply Forall_impl; [|exact Hy]. unfold ge_key. intros z Hz. lra.
    + apply Qle_bool_false_iff in E. constructor; [exact IH|].
      eapply Permutation_Forall; [symmetry; apply insert_desc_perm|].
      constructor; [unfold ge_key; lra | exact Hy].
Qed.

Lemma sort_desc_sorted (l : list A) : StronglySorted ge_key (sort_desc key l).
Proof.
  induction l as [|x l IH]; simpl; [constructor|].
  apply insert_desc_sorted. exact IH.
Qed.

End SortDesc.

Lemma StronglySorted_map {A B : Type} (f : A -> B) (R : B -> B -> Prop)
    (l : list A) :
  StronglySorted (fun a b => R (f a) (f b)) l -> StronglySorted R (map f l).
Proof.
  induction 1 as [|x l Hl IH Hx]; simpl; constructor; auto.
  apply Forall_map. exact Hx.
Qed.

Lemma In_firstn_In {A : Type} (n : nat) (l : list A) (x : A) :
  In x (firstn n l) -> In x l.
Proof.
  intro H. rewrite <- (firstn_skipn n l). apply in_or_app. left. exact H.
Qed.

Lemma StronglySorted_firstn {A : Type} (R : A -> A -> Prop) (n : nat)
    (l : list A) :
  StronglySorted R l -> StronglySorted R (firstn n l).
Proof.
  intro H. revert n. induction H as [|x l Hl IH Hx]; intros [|n]; simpl;
    try constructor; auto.
  apply Forall_forall. intros y Hy. rewrite Forall_forall in Hx.
  apply Hx. eapply In_firstn_In; eauto.
Qed.

(** ** Non-max suppression *)

Lemma indexed_from_nth_error {A : Type} (l : list A) (s : nat) :
  Forall (fun c => (s <= fst c)%nat /\ nth_error l (fst c - s) = Some (snd c))
         (combine (seq s (length l)) l).
Proof.
  revert s. induction l as [|x l IH]; intro s; simpl; constructor.
  - simpl. rewrite Nat.sub_diag. split; [lia | reflexivity].
  - eapply Forall_impl; [|apply (IH (S s))]. simpl.
    intros [i v] [Hi Hv]. simpl in *. split; [lia|].
    replace (i - s)%nat with (S (i - S s)) by lia. exact Hv.
Qed.

Lemma indexed_nth_error {A : Type} (l : list A) :
  Forall (fun c => nth_error l (fst c) = Some (snd c)) (indexed l).
Proof.
  eapply Forall_impl; [|apply (indexed_from_nth_error l 0)]. simpl.
  intros [i v] [_ Hv]. simpl in *. rewrite Nat.sub_0_r in Hv. exact Hv.
Qed.

Lemma indexed_length {A : Type} (l : list A) : length (indexed l) = length l.
Proof.
  unfold indexed. rewrite length_combine, length_seq. lia.
Qed.

Lemma nth_error_combine_inv {A B : Type} (l1 : list A) (l2 : list B)
    (i : nat) (a : A) (b : B) :
  nth_error (combine l1 l2) i = Some (a, b) ->
  nth_error l1 i = Some a /\ nth_error l2 i = Some b.
Proof.
  revert l2 i. induction l1 as [|x l1 IH]; intros [|y l2] [|i]; simpl;
    try discriminate.
  - intro H. injection H as -> ->. auto.
  - apply IH.
Qed.

Lemma ForallOrdPairs_snoc {A : Type} (R : A -> A -> Prop) (l : list A) (x : A) :
  ForallOrdPairs R l -> Forall (fun a => R a x) l ->
  ForallOrdPairs R (l ++ [x]).
Proof.
  induction 1 as [|a l Ha Hl IH]; intro Hx; simpl.
  - constructor; constructor.
  - inversion Hx as [|? ? Hax Hlx]; subst. constructor.
    + apply Forall_app. split; [exact Ha | constructor; [exact Hax | constructor]].
    + apply IH. exact Hlx.
Qed.

Section NmsLoop.

Variable iou_threshold : Q.
Variable output_size : nat.

(** [c], examined after [s] was selected, does not overlap it by more than
    the threshold. *)
Let compatible (s c : candidate) : Prop :=
  iou (cand_box c) (cand_box s) <= iou_threshold.

Lemma nms_loop_length (candidates selected : list candidate) :
  (length selected <= output_size)%nat ->
  (length (nms_loop iou_threshold output_size candidates selected)
   <= output_size)%nat.
Proof.
  revert selected.
  induction candidates as [|c candidates IH]; intros selected H; cbn [nms_loop].
  - rewrite length_rev. exact H.
  - destruct (output_size <=? length selected)%nat eqn:E.
    + rewrite length_rev. exact H.
    + apply Nat.leb_gt in E.
      destruct (existsb _ selected); apply IH; simpl; lia.
Qed.

Lemma nms_loop_incl (candidates selected : list candidate) (c : candidate) :
  In c (nms_loop iou_threshold output_size candidates selected) ->
  In c candidates \/ In c selected.
Proof.
  revert selected.
  induction candidates as [|d candidates IH]; intros selected H; cbn [nms_loop] in H.
  - right. apply in_rev. exact H.
  - destruct (output_size <=? length selected)%nat.
    + right. apply in_rev. exact H.
    + destruct (existsb _ selected).
      * destruct (IH _ H); [left; right; assumption | right; assumption].
      * destruct (IH _ H) as [Hc|[<-|Hs]].
        { left. right. exact Hc. }
        { left. left. reflexivity. }
        { right. exact Hs. }
Qed.

Lemma nms_loop_compatible (candidates selected : list candidate) :
  ForallOrdPairs compatible (rev selected) ->
  ForallOrdPairs compatible
    (nms_loop iou_threshold output_size candidates selected).
Proof.
  revert selected.
  induction candidates as [|c candidates IH]; intros selected H; cbn [nms_loop].
  - exact H.
  - destruct (output_size <=? length selected)%nat; [exact H|].
    destruct (existsb _ selected) eqn:E; [apply IH; exact H|].
    apply IH. simpl. apply ForallOrdPairs_snoc; [exact H|].
    apply Forall_rev. apply Forall_forall. intros s Hs.
    destruct (iou_greater_than_threshold (cand_box c) (cand_box s)
                                         iou_threshold) eqn:G.
    + assert (X : existsb
                    (fun s0 => iou_greater_than_threshold
                                 (cand_box c) (cand_box s0) iou_threshold)
                    selected = true).
      { apply existsb_exists. exists s. split; assumption. }
      congruence.
    + apply Qlt_bool_false_iff in G. exact G.
Qed.

End NmsLoop.

Lemma ForallOrdPairs_map {A B : Type} (f : A -> B) (R : B -> B -> Prop)
    (l : list A) :
  ForallOrdPairs (fun a b => R (f a) (f b)) l -> ForallOrdPairs R (map f l).
Proof.
  induction 1 as [|a l Ha Hl IH]; simpl; constructor; auto.
  apply Forall_map. exact Ha.
Qed.

Lemma non_max_suppression_int32 (boxes : list box) (scores : list Q)
    (max_output_size : Z) (iou_threshold : Q) (idx : list nat) :
  non_max_suppression boxes scores max_output_size iou_threshold = Ok idx ->
  int32 max_output_size = Ok max_output_size.
Proof.
  unfold non_max_suppression.
  destruct (int32 max_output_size) as [m|e] eqn:E; [|discriminate].
  intros _. apply int32_Ok in E. destruct E as [-> _]. reflexivity.
Qed.

(** What a successful call of the op returns: the indices of candidates that
    are entries of [boxes] and [scores], at most [max_output_size] of them,
    none overlapping an earlier one by more than the threshold. *)
Lemma non_max_suppression_Ok (boxes : list box) (scores : list Q)
    (max_output_size : Z) (iou_threshold : Q) (idx : list nat) :
  non_max_suppression boxes scores max_output_size iou_threshold = Ok idx ->
  exists sel : list candidate,
    idx = map cand_index sel /\
    Forall (fun c => nth_error boxes (cand_index c) = Some (cand_box c) /\
                     nth_error scores (cand_index c) = Some (cand_score c)) sel /\
    (Z.of_nat (length sel) <= max_output_size)%Z /\
    ForallOrdPairs (fun s c => iou (cand_box c) (cand_box s) <= iou_threshold) sel.
Proof.
  intro H. pose proof (non_max_suppression_int32 _ _ _ _ H) as Ei.
  revert H. unfold non_max_suppression. rewrite Ei. cbn [bind].
  destruct (negb (Qle_bool 0 iou_threshold && Qle_bool iou_threshold 1));
    [discriminate|].
  destruct (max_output_size <? 0)%Z eqn:Hm; [discriminate|].
  destruct (negb (length boxes =? length scores)%nat); [discriminate|].
  apply Z.ltb_ge in Hm. intro H. injection H as <-.
  set (out := Nat.min (Z.to_nat max_output_size) (length boxes)).
  set (cands := sort_desc cand_score (indexed (combine boxes scores))).
  exists (nms_loop iou_threshold out cands []).
  split; [reflexivity|]. split; [|split].
  - apply Forall_forall. intros c Hc.
    apply nms_loop_incl in Hc. destruct Hc as [Hc|[]].
    assert (P : Forall (fun c => nth_error (combine boxes scores) (fst c)
                                 = Some (snd c)) cands).
    { eapply Permutation_Forall; [symmetry; apply sort_desc_perm|].
      apply indexed_nth_error. }
    rewrite Forall_forall in P. specialize (P c Hc).
    destruct c as [i [b s]]. simpl in P.
    apply nth_error_combine_inv in P. exact P.
  - pose proof (@nms_loop_length iou_threshold out cands []) as L.
    simpl in L. specialize (L (Nat.le_0_l _)). unfold out in L at 2. lia.
  - apply nms_loop_compatible. simpl. constructor.
Qed.

Lemma class_nms_Ok (self : t) (objects_tf : list box) (labels : list Z)
    (probs : list Q) (class_id : nat) (r : list box * list Q * list Z) :
  class_nms self objects_tf labels probs class_id = Ok r ->
  exists sel : list candidate,
    r = (map cand_box sel, map cand_score sel,
         repeat (Z.of_nat class_id) (length sel)) /\
    (Z.of_nat (length sel) <= _class_max_detections self)%Z /\
    ForallOrdPairs (fun s c => iou (cand_box c) (cand_box s)
                               <= _class_nms_threshold self) sel.
Proof.
  unfold class_nms. intro H.
  bind_inv H cobjs E1. bind_inv H cprobs E2. bind_inv H idx E3.
  apply non_max_suppression_Ok in E3.
  destruct E3 as (sel & -> & Hnth & Hlen & Hpairs).
  exists sel.
  rewrite (@gather_map _ _ cobjs sel cand_index cand_box) in H
    by (eapply Forall_impl; [|exact Hnth]; simpl; tauto).
  rewrite (@gather_map _ _ cprobs sel cand_index cand_score) in H
    by (eapply Forall_impl; [|exact Hnth]; simpl; tauto).
  cbn [bind] in H. injection H as <-. rewrite length_map.
  unfold tile. auto.
Qed.

Lemma per_class_nms_Ok (self : t) (objects_tf : list box) (labels : list Z)
    (probs : list Q) (sb : list (list box)) (sp : list (list Q))
    (sl : list (list Z)) :
  per_class_nms self objects_tf labels probs = Ok (sb, sp, sl) ->
  exists per_class,
    sb = map (fun r => fst (fst r)) per_class /\
    sp = map (fun r => snd (fst r)) per_class /\
    sl = map snd per_class /\
    Forall2 (fun c r => class_nms self objects_tf labels probs c = Ok r)
            (seq 0 (_num_classes self)) per_class.
Proof.
  unfold per_class_nms. intro H. bind_inv H per_class E.
  injection H as <- <- <-. exists per_class.
  repeat split. apply mapM_Ok_Forall2. exact E.
Qed.

(** ** The global top-k *)

Lemma top_k_Ok (values : list Q) (k : Z) (vs : list Q) (idx : list nat) :
  top_k values k = Ok (vs, idx) ->
  (0 <= k)%Z /\ length vs = Z.to_nat k /\ length idx = Z.to_nat k /\
  descending vs /\
  Forall2 (fun i v => nth_error values i = Some v) idx vs.
Proof.
  unfold top_k. destruct (k <? 0)%Z eqn:K0; [discriminate|].
  destruct (Z.of_nat (length values) <? k)%Z eqn:K1; [discriminate|].
  apply Z.ltb_ge in K0, K1. intro H. injection H as <- <-.
  rewrite !length_map, length_firstn, sort_desc_length, indexed_length.
  repeat split; try lia.
  - apply StronglySorted_map. apply StronglySorted_firstn.
    apply (sort_desc_sorted (A:=nat * Q) snd).
  - assert (P : Forall (fun c => nth_error values (fst c) = Some (snd c))
                       (firstn (Z.to_nat k) (sort_desc snd (indexed values)))).
    { apply Forall_forall. intros c Hc. apply In_firstn_In in Hc.
      revert c Hc. apply Forall_forall.
      eapply Permutation_Forall; [symmetry; apply sort_desc_perm|].
      apply indexed_nth_error. }
    induction P; simpl; constructor; auto.
Qed.

Lemma top_k_selection_Ok (self : t) (sb : list (list box))
    (sp : list (list Q)) (sl : list (list Z))
    (objs : list box) (labs : list Z) (vals : list Q) :
  top_k_selection self sb sp sl = Ok (objs, labs, vals) ->
  length objs = length vals /\ length labs = length vals /\
  (Z.of_nat (length vals) <= _total_max_detections self)%Z /\
  descending vals.
Proof.
  unfold top_k_selection. intro H.
  bind_inv H objects_tf E1. bind_inv H labels E2. bind_inv H probs E3.
  bind_inv H cap Ecap. apply int32_Ok in Ecap. destruct Ecap as [-> _].
  bind_inv H vi E4. destruct vi as [values indices].
  bind_inv H tobjs E5. bind_inv H tlabs E6. injection H as <- <- <-.
  apply top_k_Ok in E4. destruct E4 as (K0 & Lv & Li & D & _).
  apply gather_Ok_length in E5, E6.
  split; [congruence|]. split; [congruence|]. split; [lia | exact D].
Qed.

Lemma build_Ok (exp : Q -> Q) (self : t)
    (proposals bbox_pred cls_prob : list (list Q)) (im_shape : Q * Q)
    (out : output) :
  _build exp self proposals bbox_pred cls_prob im_shape = Ok out ->
  exists objects_tf labels probs,
    before_nms exp self proposals bbox_pred cls_prob im_shape
    = Ok (raw_objects out, objects_tf, labels, probs) /\
    per_class_nms self objects_tf labels probs
    = Ok (selected_boxes out, selected_probs out, selected_labels out) /\
    top_k_selection self (selected_boxes out) (selected_probs out)
                    (selected_labels out)
    = Ok (objects out, proposal_label out, proposal_label_prob out).
Proof.
  unfold _build. intro H.
  bind_inv H b E1. destruct b as [[[raw objects_tf] labels] probs].
  bind_inv H s E2. destruct s as [[sb sp] sl].
  bind_inv H k E3. destruct k as [[objs labs] vals].
  injection H as <-. simpl. eauto 6.
Qed.

(** ** Overlap *)

Lemma iou_sym (a b : box) : iou a b == iou b a.
Proof.
  destruct a as [[[a1 a2] a3] a4], b as [[[b1 b2] b3] b4].
  unfold iou. cbv zeta.
  set (area_a := (Qmax a1 a3 - Qmin a1 a3) * (Qmax a2 a4 - Qmin a2 a4)).
  set (area_b := (Qmax b1 b3 - Qmin b1 b3) * (Qmax b2 b4 - Qmin b2 b4)).
  rewrite (orb_comm (Qle_bool area_b 0)).
  destruct (Qle_bool area_a 0 || Qle_bool area_b 0); [reflexivity|].
  rewrite (Q.max_comm (Qmin b1 b3) (Qmin a1 a3)).
  rewrite (Q.max_comm (Qmin b2 b4) (Qmin a2 a4)).
  rewrite (Q.min_comm (Qmax b1 b3) (Qmax a1 a3)).
  rewrite (Q.min_comm (Qmax b2 b4) (Qmax a2 a4)).
  rewrite (Qplus_comm area_b area_a). reflexivity.
Qed.

(** ** Counts and order of the output *)

(** Claim C4.  When [_build] returns, every class has at most
    [class_max_detections] selected boxes (and as many probabilities and
    labels), the final boxes are at most [total_max_detections], the final
    labels and probabilities are as many as the boxes, and the final
    probabilities are in decreasing order. *)
Theorem detection_counts_are_capped_and_output_is_sorted :
  forall (exp : Q -> Q) (self : t)
         (proposals bbox_pred cls_prob : list (list Q)) (im_shape : Q * Q)
         (out : output),
    _build exp self proposals bbox_pred cls_prob im_shape = Ok out ->
    Forall (fun bs => (Z.of_nat (length bs) <= _class_max_detections self)%Z)
           (selected_boxes out) /\
    Forall (fun ps => (Z.of_nat (length ps) <= _class_max_detections self)%Z)
           (selected_probs out) /\
    Forall (fun ls => (Z.of_nat (length ls) <= _class_max_detections self)%Z)
           (selected_labels out) /\
    (Z.of_nat (length (objects out)) <= _total_max_detections self)%Z /\
    length (proposal_label out) = length (objects out) /\
    length (proposal_label_prob out) = length (objects out) /\
    descending (proposal_label_prob out).
Proof.
  intros exp self proposals bbox_pred cls_prob im_shape out H.
  apply build_Ok in H. destruct H as (objects_tf & labels & probs & _ & N & K).
  apply per_class_nms_Ok in N.
  destruct N as (per_class & -> & -> & -> & N).
  apply top_k_selection_Ok in K. destruct K as (K1 & K2 & K3 & K4).
  assert (C : Forall (fun r : list box * list Q * list Z =>
              (Z.of_nat (length (fst (fst r))) <= _class_max_detections self)%Z /\
              (Z.of_nat (length (snd (fst r))) <= _class_max_detections self)%Z /\
              (Z.of_nat (length (snd r)) <= _class_max_detections self)%Z)
            per_class).
  { clear - N. induction N as [|c r cs rs Hr _ IH]; constructor; [|exact IH].
    apply class_nms_Ok in Hr. destruct Hr as (sel & -> & L & _). simpl.
    rewrite !length_map, repeat_length. auto. }
  repeat split.
  - apply Forall_map. eapply Forall_impl; [|exact C]. simpl. tauto.
  - apply Forall_map. eapply Forall_impl; [|exact C]. simpl. tauto.
  - apply Forall_map. eapply Forall_impl; [|exact C]. simpl. tauto.
  - rewrite K1. exact K3.
  - congruence.
  - congruence.
  - exact K4.
Qed.

Lemma detection_counts_are_capped_and_output_is_sorted_witness :
  exists out,
    _build exp_series Scenario.self Scenario.proposals Scenario.bbox_pred
           Scenario.cls_prob Scenario.im_shape = Ok out /\
    Forall (fun bs => (Z.of_nat (length bs)
                       <= _class_max_detections Scenario.self)%Z)
           (selected_boxes out) /\
    Forall (fun ps => (Z.of_nat (length ps)
                       <= _class_max_detections Scenario.self)%Z)
           (selected_probs out) /\
    Forall (fun ls => (Z.of_nat (length ls)
                       <= _class_max_detections Scenario.self)%Z)
           (selected_labels out) /\
    (Z.of_nat (length (objects out)) <= _total_max_detections Scenario.self)%Z /\
    length (proposal_label out) = length (objects out) /\
    length (proposal_label_prob out) = length (objects out) /\
    descending (proposal_label_prob out).
Proof.
  eexists. split; [vm_compute; reflexivity|].
  eapply (@detection_counts_are_capped_and_output_is_sorted
            exp_series Scenario.self Scenario.proposals Scenario.bbox_pred
            Scenario.cls_prob Scenario.im_shape).
  vm_compute. reflexivity.
Defined.

(** ** Overlap of the boxes a class retains *)

Lemma ForallOrdPairs_nth {A : Type} (R : A -> A -> Prop) (l : list A) (d : A) :
  ForallOrdPairs R l ->
  forall i j, (i < j)%nat -> (j < length l)%nat -> R (nth i l d) (nth j l d).
Proof.
  induction 1 as [|a l Ha Hl IH]; intros i j Hij Hj; simpl in Hj; [lia|].
  destruct j as [|j]; [lia|]. destruct i as [|i]; simpl.
  - rewrite Forall_forall in Ha. apply Ha. apply nth_In. lia.
  - apply IH; lia.
Qed.

(** Claim C3, as the code has it.  When [_build] returns, any two boxes
    selected for the same class overlap by at most [class_nms_threshold]:
    the op drops a candidate only when its overlap with a selected box is
    greater than the threshold. *)
Theorem retained_boxes_overlap_at_most_threshold :
  forall (exp : Q -> Q) (self : t)
         (proposals bbox_pred cls_prob : list (list Q)) (im_shape : Q * Q)
         (out : output) (class_id : nat) (boxes : list box) (i j : nat) (d : box),
    _build exp self proposals bbox_pred cls_prob im_shape = Ok out ->
    nth_error (selected_boxes out) class_id = Some boxes ->
    (i < length boxes)%nat -> (j < length boxes)%nat -> i <> j ->
    iou (nth i boxes d) (nth j boxes d) <= _class_nms_threshold self.
Proof.
  intros exp self proposals bbox_pred cls_prob im_shape out class_id boxes
         i j d H Hc Hi Hj Hij.
  apply build_Ok in H. destruct H as (objects_tf & labels & probs & _ & N & _).
  apply per_class_nms_Ok in N. destruct N as (per_class & E & _ & _ & N).
  rewrite E in Hc. apply nth_error_In in Hc. apply in_map_iff in Hc.
  destruct Hc as (r & <- & Hr).
  assert (P : ForallOrdPairs (fun b1 b2 => iou b2 b1 <= _class_nms_threshold self)
                             (fst (fst r))).
  { clear - N Hr. induction N as [|c r' cs rs Hr' _ IH]; [destruct Hr|].
    destruct Hr as [<-|Hr]; [|apply IH; exact Hr].
    apply class_nms_Ok in Hr'. destruct Hr' as (sel & -> & _ & P). simpl.
    apply ForallOrdPairs_map. exact P. }
  destruct (Nat.lt_total i j) as [L|[L|L]]; [| contradiction |].
  - rewrite iou_sym. apply (ForallOrdPairs_nth d P); assumption.
  - apply (ForallOrdPairs_nth d P); assumption.
Qed.

Lemma retained_boxes_overlap_at_most_threshold_witness :
  exists out boxes,
    _build exp_series Tie.self Tie.proposals Tie.bbox_pred Tie.cls_prob
           Tie.im_shape = Ok out /\
    nth_error (selected_boxes out) 0 = Some boxes /\
    iou (nth 0 boxes (0, 0, 0, 0)) (nth 1 boxes (0, 0, 0, 0)) <= 1 # 2.
Proof.
  eexists. eexists. split; [vm_compute; reflexivity|].
  split; [reflexivity|].
  eapply retained_boxes_overlap_at_most_threshold
    with (exp := exp_series) (self := Tie.self) (proposals := Tie.proposals)
         (bbox_pred := Tie.bbox_pred) (cls_prob := Tie.cls_prob)
         (im_shape := Tie.im_shape) (class_id := 0%nat);
    [vm_compute; reflexivity | reflexivity | simpl; lia | simpl; lia
     | discriminate].
Defined.

(** Claim C3 as stated fails: the two boxes of [Tie] overlap by exactly the
    threshold and both are selected, by the loop body on the two boxes and
    by [_build] on the proposals. *)
Lemma tie_at_threshold_is_retained :
  iou (0, 0, 1, 3) (0, 1, 1, 4) == _class_nms_threshold Tie.self /\
  class_nms Tie.self [(0, 0, 1, 3); (0, 1, 1, 4)] [0; 0]%Z [9 # 10; 8 # 10] 0
  = Ok ([(0, 0, 1, 3); (0, 1, 1, 4)], [9 # 10; 8 # 10], [0; 0]%Z) /\
  exists out b1 b2,
    _build exp_series Tie.self Tie.proposals Tie.bbox_pred Tie.cls_prob
           Tie.im_shape = Ok out /\
    nth_error (selected_boxes out) 0 = Some [b1; b2] /\
    iou b1 b2 == _class_nms_threshold Tie.self /\
    ~ iou b1 b2 < _class_nms_threshold Tie.self.
Proof.
  split; [reflexivity|]. split; [reflexivity|].
  eexists. eexists. eexists. split; [vm_compute; reflexivity|].
  split; [reflexivity|]. split; [reflexivity|].
  vm_compute. discriminate.
Qed.

(** ** Row counts *)





(** ** The guard on the columns of the proposals *)

(** Claim C7, the behaviour of the code on a proposal of six columns: the
    slice of line 71 returns its last five columns, label assignment runs on
    them and keeps the row, and the call fails only later, in the decoder,
    not on an assertion. *)
Theorem six_column_proposals_pass_the_guard :
  Forall (fun row => length row <> 5%nat) Wide.proposals /\
  strip_batch_id Wide.proposals = [[0; 0; 10; 10; 7]] /\
  label_assignment Scenario.self (strip_batch_id Wide.proposals)
                   Wide.bbox_pred Wide.cls_prob
  = Ok ([[0; 0; 10; 10; 7]], [0%Z], [8 # 10], Wide.bbox_pred) /\
  forall exp : Q -> Q,
    _build exp Scenario.self Wide.proposals Wide.bbox_pred Wide.cls_prob
           Scenario.im_shape = Err OpError.
Proof.
  split; [repeat constructor; simpl; lia|].
  split; [reflexivity|]. split; [reflexivity|].
  intro exp. reflexivity.
Qed.

(** ** The configuration *)











(** ** Boxes up to the value of their coordinates *)


Lemma change_order_box_involutive (b : box) :
  change_order_box (change_order_box b) = b.
Proof. destruct b as [[[b1 b2] b3] b4]. reflexivity. Qed.








(** ** More on gathering and masking *)

Lemma gather_Forall {A : Type} (P : A -> Prop) (t : list A) (idx : list nat)
    (r : list A) :
  gather t idx = Ok r -> Forall P t -> Forall P r.
Proof.
  intros H Ht. apply mapM_Ok_Forall2 in H. rewrite Forall_forall in Ht.
  induction H as [|i x idx r Hi _ IH]; constructor; [|exact IH].
  destruct (nth_error t i) as [y|] eqn:E; [|discriminate].
  injection Hi as <-. apply Ht. eapply nth_error_In. exact E.
Qed.

Lemma where_from_bound (mask : list bool) (i : nat) :
  Forall (fun j => (i <= j < i + length mask)%nat) (where_from i mask).
Proof.
  revert i. induction mask as [|b mask IH]; intro i; simpl; [constructor|].
  assert (T : Forall (fun j => (i <= j < i + S (length mask))%nat)
                     (where_from (S i) mask)).
  { eapply Forall_impl; [|apply IH]. simpl. intros; lia. }
  destruct b; [constructor; [lia | exact T] | exact T].
Qed.

Lemma where_from_true (mask : list bool) (i j : nat) :
  In j (where_from i mask) -> nth_error mask (j - i) = Some true.
Proof.
  revert i. induction mask as [|b mask IH]; intros i H; simpl in H; [destruct H|].
  assert (T : In j (where_from (S i) mask) ->
              nth_error (b :: mask) (j - i) = Some true).
  { intro G. pose proof (where_from_bound mask (S i)) as Bd.
    rewrite Forall_forall in Bd. specialize (Bd j G).
    replace (j - i)%nat with (S (j - S i)) by lia. simpl. apply IH. exact G. }
  destruct b; [|auto]. destruct H as [<-|H]; [|auto].
  rewrite Nat.sub_diag. reflexivity.
Qed.



(** ** The re-run, stage by stage *)










Lemma validity_filter_id (clipped_objects : list box) (labels : list Z)
    (probs : list Q) :
  length labels = length clipped_objects ->
  length probs = length clipped_objects ->
  validity_filter clipped_objects labels probs
  = Ok (clipped_objects, labels, probs).
Proof.
  intros HL HP. unfold validity_filter.
  assert (A : Forall (fun b => b = true) (map object_filter clipped_objects)).
  { apply Forall_forall. intros b Hb. apply in_map_iff in Hb.
    destruct Hb as ([[[x_min y_min] x_max] y_max] & <- & _).
    unfold object_filter. apply Qle_bool_iff.
    apply Qmult_le_0_compat; apply Q.le_max_r. }
  rewrite !boolean_mask_all_true; rewrite ?length_map; auto.
Qed.

(** ** Pairs of a list *)





(** ** When nothing is suppressed *)


(** ** Gathering along a permutation of the positions *)



(** ** Co-indexed columns *)

Lemma combine_map_same {A B C : Type} (f : A -> B) (g : A -> C) (l : list A) :
  combine (map f l) (map g l) = map (fun x => (f x, g x)) l.
Proof. induction l; simpl; [reflexivity | f_equal; assumption]. Qed.

Lemma map_snd_combine_seq {A : Type} (l : list A) (s : nat) :
  map snd (combine (seq s (length l)) l) = l.
Proof.
  revert s. induction l as [|x l IH]; intro s; simpl;
    [reflexivity | f_equal; apply IH].
Qed.


Lemma map_snd_indexed {A : Type} (l : list A) : map snd (indexed l) = l.
Proof. apply map_snd_combine_seq. Qed.



Lemma mapM_exists {A B : Type} (f : A -> result B) (P : A -> B -> Prop)
    (l : list A) :
  Forall (fun x => exists r, f x = Ok r /\ P x r) l ->
  exists rs, mapM f l = Ok rs /\ Forall2 P l rs.
Proof.
  induction 1 as [|x l (r & Hr & Hp) _ (rs & Hrs & HP)].
  - exists []. split; constructor.
  - exists (r :: rs). simpl. rewrite Hr, Hrs. split; [reflexivity|].
    constructor; assumption.
Qed.

(** ** The classes partition the detections *)



(** ** The loop over the classes and the top-k of the re-run *)





(** ** What the stages before the loop hand over *)

Lemma gather_where_Forall {A : Type} (P : A -> Prop) (t : list A)
    (mask : list bool) (r : list A) :
  boolean_mask t mask = Ok r ->
  (forall i x, nth_error mask i = Some true -> nth_error t i = Some x -> P x) ->
  Forall P r.
Proof.
  unfold boolean_mask, where_, gather. intros H HP.
  apply mapM_Ok_Forall2 in H.
  assert (T : forall i, In i (where_from 0 mask) -> nth_error mask i = Some true).
  { intros i Hi. apply where_from_true in Hi. rewrite Nat.sub_0_r in Hi.
    exact Hi. }
  induction H as [|i x idx r Hi _ IH]; constructor.
  - destruct (nth_error t i) as [y|] eqn:E; [|discriminate].
    injection Hi as <-. apply (HP i); [apply T; left; reflexivity | exact E].
  - apply IH. intros j Hj. apply T. right. exact Hj.
Qed.

Lemma proposal_filter_true (self : t) (labels : list Z) (probs : list Q)
    (i : nat) (v : Q) :
  nth_error (proposal_filter self labels probs) i = Some true ->
  nth_error probs i = Some v -> _min_prob_threshold self <= v.
Proof.
  unfold proposal_filter, logical_and. revert probs i.
  induction labels as [|l labels IH]; intros [|p probs] [|i]; simpl;
    try discriminate.
  - intros H E. injection H as H. injection E as <-.
    apply andb_true_iff in H. apply Qle_bool_iff. tauto.
  - apply IH.
Qed.

Lemma label_assignment_facts (self : t)
    (proposals bbox_pred cls_prob p b : list (list Q)) (l : list Z)
    (v : list Q) :
  label_assignment self proposals bbox_pred cls_prob = Ok (p, l, v, b) ->
  length p = length l /\ length v = length l /\
  Forall (fun x => _min_prob_threshold self <= x) v.
Proof.
  unfold label_assignment. intro H.
  bind_inv H labels E1. bind_inv H probs E2. bind_inv H u E3.
  bind_inv H p' E4. bind_inv H l' E5. bind_inv H v' E6. bind_inv H b' E7.
  injection H as <- <- <- <-.
  pose proof (gather_Ok_length _ _ E4) as L4.
  pose proof (gather_Ok_length _ _ E5) as L5.
  pose proof (gather_Ok_length _ _ E6) as L6.
  repeat split; try congruence.
  eapply gather_where_Forall; [exact E6|].
  intros i x Hm Hx. eapply proposal_filter_true; eassumption.
Qed.

Lemma decode_Ok_length (exp : Q -> Q) (roi deltas : list (list Q))
    (raw : list box) :
  decode exp roi deltas = Ok raw -> length raw = length roi.
Proof.
  revert deltas raw. induction roi as [|r roi IH]; intros [|d deltas] raw;
    simpl; try discriminate.
  - intro H. injection H as <-. reflexivity.
  - intro H. bind_inv H r4 E1. bind_inv H d4 E2. bind_inv H bs E3.
    injection H as <-. simpl. f_equal. eapply IH. exact E3.
Qed.

Lemma before_nms_facts (exp : Q -> Q) (self : t)
    (proposals bbox_pred cls_prob : list (list Q)) (im_shape : Q * Q)
    (raw objects_tf : list box) (labels : list Z) (probs : list Q) :
  before_nms exp self proposals bbox_pred cls_prob im_shape
  = Ok (raw, objects_tf, labels, probs) ->
  length labels = length objects_tf /\ length probs = length objects_tf /\
  Forall (fun b => exists r, b = change_order_box (clip_box im_shape r))
         objects_tf /\
  Forall (fun x => _min_prob_threshold self <= x) probs.
Proof.
  unfold before_nms. intro H.
  bind_inv H la E1. destruct la as [[[p l] v] b].
  bind_inv H d E2. bind_inv H raw' E3. bind_inv H vf E4.
  destruct vf as [[o l'] v'].
  apply label_assignment_facts in E1. destruct E1 as (Lp & Lv & Fv).
  apply decode_Ok_length in E3.
  rewrite validity_filter_id in E4
    by (unfold clip_boxes; rewrite length_map; congruence).
  injection E4 as <- <- <-. injection H as <- <- <- <-.
  unfold change_order, clip_boxes. rewrite !length_map.
  repeat split; try congruence.
  apply Forall_map. apply Forall_map. apply Forall_forall.
  intros r _. exists r. reflexivity.
Qed.

(** ** The detections of the first run, tagged with their class *)

Lemma class_nms_Ok_more (self : t) (objects_tf : list box) (labels : list Z)
    (probs : list Q) (class_id : nat) (bs : list box) (ps : list Q)
    (ls : list Z) :
  class_nms self objects_tf labels probs class_id = Ok (bs, ps, ls) ->
  Forall (fun b => In b objects_tf) bs /\ Forall (fun p => In p probs) ps /\
  0 <= _class_nms_threshold self /\ _class_nms_threshold self <= 1 /\
  (0 <= _class_max_detections self)%Z.
Proof.
  unfold class_nms. intro H.
  bind_inv H cobjs E1. bind_inv H cprobs E2. bind_inv H idx E3.
  bind_inv H bs' E4. bind_inv H ps' E5. injection H as <- <- <-.
  assert (I1 : Forall (fun b => In b objects_tf) objects_tf)
    by (apply Forall_forall; auto).
  assert (I2 : Forall (fun p => In p probs) probs)
    by (apply Forall_forall; auto).
  pose proof (gather_Forall _ E1 I1) as J1.
  pose proof (gather_Forall _ E2 I2) as J2.
  split; [exact (gather_Forall _ E4 J1)|].
  split; [exact (gather_Forall _ E5 J2)|].
  pose proof (non_max_suppression_int32 _ _ _ _ E3) as Ei.
  unfold non_max_suppression in E3. rewrite Ei in E3. cbn [bind] in E3.
  destruct (Qle_bool 0 (_class_nms_threshold self)) eqn:T0;
    [|discriminate].
  destruct (Qle_bool (_class_nms_threshold self) 1) eqn:T1;
    [|discriminate].
  cbn [andb negb] in E3.
  destruct (_class_max_detections self <? 0)%Z eqn:M0; [discriminate|].
  apply Qle_bool_iff in T0, T1. apply Z.ltb_ge in M0. auto.
Qed.


Lemma filter_none {A : Type} (f : A -> bool) (l : list A) :
  Forall (fun x => f x = false) l -> filter f l = [].
Proof.
  induction 1 as [|x l Hx _ IH]; simpl; [reflexivity|].
  rewrite Hx. exact IH.
Qed.


(** ** The top-k on co-indexed columns *)

Lemma combine_map_r {A B C : Type} (f : B -> C) (l1 : list A) (l2 : list B) :
  combine l1 (map f l2) = map (fun c => (fst c, f (snd c))) (combine l1 l2).
Proof.
  revert l2. induction l1 as [|x l1 IH]; intros [|y l2]; simpl;
    try reflexivity. f_equal. apply IH.
Qed.

Lemma indexed_map {A B : Type} (f : A -> B) (l : list A) :
  indexed (map f l) = map (fun c => (fst c, f (snd c))) (indexed l).
Proof. unfold indexed. rewrite length_map. apply combine_map_r. Qed.

Lemma insert_desc_map {A B : Type} (key : B -> Q) (f : A -> B) (x : A)
    (l : list A) :
  insert_desc key (f x) (map f l)
  = map f (insert_desc (fun a => key (f a)) x l).
Proof.
  induction l as [|y l IH]; simpl; [reflexivity|].
  destruct (Qle_bool (key (f y)) (key (f x))); simpl; [reflexivity|].
  f_equal. exact IH.
Qed.

Lemma sort_desc_map {A B : Type} (key : B -> Q) (f : A -> B) (l : list A) :
  sort_desc key (map f l) = map f (sort_desc (fun a => key (f a)) l).
Proof.
  induction l as [|x l IH]; simpl; [reflexivity|].
  rewrite IH. apply insert_desc_map.
Qed.




(** ** Running the pipeline on its own output *)






(** * Further properties of [_build] *)

(** ** The lists the loop over the classes returns *)

Lemma Forall2_seq_nth_error {B : Type} (P : nat -> B -> Prop) (l : list B)
    (s n i : nat) (r : B) :
  Forall2 P (seq s n) l -> nth_error l i = Some r -> P (s + i)%nat r.
Proof.
  revert s l i. induction n as [|n IH]; intros s l i F Hi; simpl in F.
  - inversion F; subst. destruct i; discriminate.
  - inversion F as [|? r0 ? l' H0 F']; subst. destruct i as [|i]; simpl in Hi.
    + injection Hi as <-. rewrite Nat.add_0_r. exact H0.
    + replace (s + S i)%nat with (S s + i)%nat by lia. eapply IH; eassumption.
Qed.

(** The three lists have one entry per class; the entry of a class has as
    many probabilities as boxes, and as labels the class once per box. *)
Theorem per_class_lists_are_co_indexed :
  forall (exp : Q -> Q) (self : t)
         (proposals bbox_pred cls_prob : list (list Q)) (im_shape : Q * Q)
         (out : output),
    _build exp self proposals bbox_pred cls_prob im_shape = Ok out ->
    length (selected_boxes out) = _num_classes self /\
    length (selected_probs out) = _num_classes self /\
    length (selected_labels out) = _num_classes self /\
    forall (class_id : nat) (bs : list box) (ps : list Q) (ls : list Z),
      nth_error (selected_boxes out) class_id = Some bs ->
      nth_error (selected_probs out) class_id = Some ps ->
      nth_error (selected_labels out) class_id = Some ls ->
      length ps = length bs /\ ls = repeat (Z.of_nat class_id) (length bs).
Proof.
  intros exp self proposals bbox_pred cls_prob im_shape out H.
  apply build_Ok in H. destruct H as (objects_tf & labels & probs & _ & N & _).
  apply per_class_nms_Ok in N. destruct N as (per_class & -> & -> & -> & F).
  rewrite !length_map.
  assert (L : length per_class = _num_classes self).
  { apply Forall2_length in F. rewrite length_seq in F. congruence. }
  repeat split; try exact L.
  - rewrite !nth_error_map in *.
    destruct (nth_error per_class class_id) as [r|] eqn:E; [|discriminate].
    simpl in *. injection H as <-. injection H0 as <-.
    pose proof (@Forall2_seq_nth_error _ _ per_class 0 _ class_id r F E) as C.
    simpl in C.
    apply class_nms_Ok in C. destruct C as (sel & -> & _). simpl.
    rewrite !length_map. reflexivity.
  - rewrite !nth_error_map in *.
    destruct (nth_error per_class class_id) as [r|] eqn:E; [|discriminate].
    simpl in *. injection H as <-. injection H1 as <-.
    pose proof (@Forall2_seq_nth_error _ _ per_class 0 _ class_id r F E) as C.
    simpl in C.
    apply class_nms_Ok in C. destruct C as (sel & -> & _). simpl.
    rewrite !length_map. reflexivity.
Qed.

Lemma per_class_lists_are_co_indexed_witness :
  exists out,
    _build exp_series Scenario.self Scenario.proposals Scenario.bbox_pred
           Scenario.cls_prob Scenario.im_shape = Ok out /\
    length (selected_boxes out) = _num_classes Scenario.self /\
    length (selected_probs out) = _num_classes Scenario.self /\
    length (selected_labels out) = _num_classes Scenario.self /\
    forall (class_id : nat) (bs : list box) (ps : list Q) (ls : list Z),
      nth_error (selected_boxes out) class_id = Some bs ->
      nth_error (selected_probs out) class_id = Some ps ->
      nth_error (selected_labels out) class_id = Some ls ->
      length ps = length bs /\ ls = repeat (Z.of_nat class_id) (length bs).
Proof.
  eexists. split; [vm_compute; reflexivity|].
  eapply (@per_class_lists_are_co_indexed
            exp_series Scenario.self Scenario.proposals Scenario.bbox_pred
            Scenario.cls_prob Scenario.im_shape).
  vm_compute. reflexivity.
Defined.

(** ** Order and reach of the suppression *)

Lemma StronglySorted_app_l {A : Type} (R : A -> A -> Prop) (l1 l2 : list A) :
  StronglySorted R (l1 ++ l2) -> StronglySorted R l1.
Proof.
  induction l1 as [|a l1 IH]; simpl; intro H; [constructor|].
  inversion H as [|? ? Hl Ha]; subst. constructor; [apply IH; exact Hl|].
  apply Forall_app in Ha. tauto.
Qed.

Lemma StronglySorted_drop_middle {A : Type} (R : A -> A -> Prop)
    (l1 l2 : list A) (x : A) :
  StronglySorted R (l1 ++ x :: l2) -> StronglySorted R (l1 ++ l2).
Proof.
  induction l1 as [|a l1 IH]; simpl; intro H.
  - inversion H; assumption.
  - inversion H as [|? ? Hl Ha]; subst. constructor; [apply IH; exact Hl|].
    apply Forall_app in Ha. destruct Ha as [H1 H2].
    inversion H2; subst. apply Forall_app. split; assumption.
Qed.

Lemma StronglySorted_app_between {A : Type} (R : A -> A -> Prop)
    (l1 l2 : list A) :
  StronglySorted R (l1 ++ l2) ->
  forall a b, In a l1 -> In b l2 -> R a b.
Proof.
  induction l1 as [|x l1 IH]; simpl; intros H a b Ha Hb; [destruct Ha|].
  inversion H as [|? ? Hl Hx]; subst. destruct Ha as [<-|Ha].
  - rewrite Forall_forall in Hx. apply Hx. apply in_or_app. right. exact Hb.
  - eapply IH; eassumption.
Qed.

Section NmsLoopOrder.

Variable iou_threshold : Q.
Variable output_size : nat.

(** The loop returns what it had selected followed by some of the
    candidates, in their order. *)
Lemma nms_loop_sorted (R : candidate -> candidate -> Prop)
    (candidates selected : list candidate) :
  StronglySorted R (rev selected ++ candidates) ->
  StronglySorted R (nms_loop iou_threshold output_size candidates selected).
Proof.
  revert selected.
  induction candidates as [|c candidates IH]; intros selected H;
    cbn [nms_loop].
  - rewrite app_nil_r in H. exact H.
  - destruct (output_size <=? length selected)%nat.
    + eapply StronglySorted_app_l. exact H.
    + destruct (existsb _ selected).
      * apply IH. eapply StronglySorted_drop_middle. exact H.
      * apply IH. simpl. rewrite <- app_assoc. exact H.
Qed.

Lemma nms_loop_prefix (candidates selected : list candidate) :
  exists tail,
    nms_loop iou_threshold output_size candidates selected
    = rev selected ++ tail.
Proof.
  revert selected.
  induction candidates as [|c candidates IH]; intro selected; cbn [nms_loop].
  - exists []. rewrite app_nil_r. reflexivity.
  - destruct (output_size <=? length selected)%nat.
    + exists []. rewrite app_nil_r. reflexivity.
    + destruct (existsb _ selected); [apply IH|].
      destruct (IH (c :: selected)) as [tail E]. exists (c :: tail).
      rewrite E. simpl. rewrite <- app_assoc. reflexivity.
Qed.

(** A candidate the loop does not return overlaps a returned candidate by
    more than the threshold, unless the loop stopped at [output_size] with
    candidates left. *)
Lemma nms_loop_reach (candidates selected : list candidate) (c : candidate) :
  In c candidates ->
  let kept := nms_loop iou_threshold output_size candidates selected in
  In c kept \/
  (exists s, In s kept /\
             iou_threshold < iou (cand_box c) (cand_box s)) \/
  ((output_size <= length kept)%nat /\
   (output_size < length selected + length candidates)%nat).
Proof.
  revert selected.
  induction candidates as [|d candidates IH]; intros selected Hc;
    [destruct Hc|].
  cbn [nms_loop]. cbv zeta.
  destruct (output_size <=? length selected)%nat eqn:E.
  - right. right. apply Nat.leb_le in E. rewrite length_rev. simpl. lia.
  - destruct (existsb _ selected) eqn:X.
    + destruct Hc as [<-|Hc].
      * right. left. apply existsb_exists in X. destruct X as (s & Hs & G).
        apply Qlt_bool_iff in G. exists s. split; [|exact G].
        destruct (nms_loop_prefix candidates selected) as [tail ->].
        apply in_or_app. left. apply in_rev in Hs. exact Hs.
      * destruct (IH selected Hc) as [H|[H|[H1 H2]]]; auto.
        right. right. simpl. lia.
    + destruct Hc as [<-|Hc].
      * left.
        destruct (nms_loop_prefix candidates (d :: selected)) as [tail ->].
        apply in_or_app. left. apply in_rev. rewrite rev_involutive.
        left. reflexivity.
      * destruct (IH (d :: selected) Hc) as [H|[H|[H1 H2]]]; auto.
        right. right. simpl in *. lia.
Qed.

End NmsLoopOrder.

(** ** Positions of the entries a mask keeps *)

Lemma where_from_complete (mask : list bool) (s j : nat) :
  nth_error mask j = Some true -> In (s + j)%nat (where_from s mask).
Proof.
  revert s j. induction mask as [|b mask IH]; intros s [|j] H; simpl in H;
    try discriminate.
  - injection H as ->. simpl. left. lia.
  - simpl. replace (s + S j)%nat with (S s + j)%nat by lia.
    destruct b; [right|]; apply IH; exact H.
Qed.

Lemma gather_nth_error {A : Type} (t : list A) (idx : list nat) (r : list A)
    (k i : nat) :
  gather t idx = Ok r -> nth_error idx k = Some i ->
  nth_error r k = nth_error t i /\ (i < length t)%nat.
Proof.
  intros H. apply mapM_Ok_Forall2 in H. revert k.
  induction H as [|i0 x idx r Hi _ IH]; intros [|k] Hk; simpl in Hk;
    try discriminate.
  - injection Hk as ->. destruct (nth_error t i) as [y|] eqn:E; [|discriminate].
    injection Hi as <-. simpl. split; [reflexivity|].
    apply nth_error_Some. congruence.
  - simpl. apply IH. exact Hk.
Qed.

Lemma nth_error_combine {A B : Type} (l1 : list A) (l2 : list B) (j : nat)
    (a : A) (b : B) :
  nth_error l1 j = Some a -> nth_error l2 j = Some b ->
  nth_error (combine l1 l2) j = Some (a, b).
Proof.
  revert l2 j. induction l1 as [|x l1 IH]; intros [|y l2] [|j]; simpl;
    try discriminate.
  - intros H1 H2. injection H1 as ->. injection H2 as ->. reflexivity.
  - apply IH.
Qed.

Lemma indexed_from_In {A : Type} (l : list A) (s j : nat) (x : A) :
  nth_error l j = Some x -> In ((s + j)%nat, x) (combine (seq s (length l)) l).
Proof.
  revert s j. induction l as [|y l IH]; intros s [|j] H; simpl in H;
    try discriminate.
  - injection H as ->. simpl. left. f_equal. lia.
  - simpl. right. replace (s + S j)%nat with (S s + j)%nat by lia.
    apply IH. exact H.
Qed.

Lemma indexed_In {A : Type} (l : list A) (j : nat) (x : A) :
  nth_error l j = Some x -> In (j, x) (indexed l).
Proof. intro H. apply (indexed_from_In l 0 j H). Qed.

(** The boxes and probabilities of a class that enter the suppression
    contain every detection with the label of the class, as a candidate. *)
Lemma class_candidates (objects_tf : list box) (labels : list Z)
    (probs : list Q) (class_id : nat) (cobjs : list box) (cprobs : list Q)
    (i : nat) (b : box) (v : Q) :
  boolean_mask objects_tf (map (fun l => Z.eqb l (Z.of_nat class_id)) labels)
  = Ok cobjs ->
  boolean_mask probs (map (fun l => Z.eqb l (Z.of_nat class_id)) labels)
  = Ok cprobs ->
  nth_error labels i = Some (Z.of_nat class_id) ->
  nth_error objects_tf i = Some b -> nth_error probs i = Some v ->
  exists k, In (k, (b, v)) (indexed (combine cobjs cprobs)).
Proof.
  unfold boolean_mask, where_. intros E1 E2 Hl Hb Hv.
  set (mask := map (fun l => Z.eqb l (Z.of_nat class_id)) labels) in *.
  assert (Hm : nth_error mask i = Some true).
  { unfold mask. rewrite nth_error_map, Hl. simpl. rewrite Z.eqb_refl.
    reflexivity. }
  pose proof (where_from_complete mask 0 i Hm) as Hi. simpl in Hi.
  apply In_nth_error in Hi. destruct Hi as [k Hk].
  destruct (gather_nth_error _ _ k E1 Hk) as [G1 _].
  destruct (gather_nth_error _ _ k E2 Hk) as [G2 _].
  rewrite Hb in G1. rewrite Hv in G2.
  exists k. apply indexed_In. apply nth_error_combine; assumption.
Qed.

(** The loop body, with the candidates it hands to the suppression. *)
Lemma class_nms_inv (self : t) (objects_tf : list box) (labels : list Z)
    (probs : list Q) (class_id : nat) (r : list box * list Q * list Z) :
  class_nms self objects_tf labels probs class_id = Ok r ->
  exists cobjs cprobs,
    boolean_mask objects_tf (map (fun l => Z.eqb l (Z.of_nat class_id)) labels)
    = Ok cobjs /\
    boolean_mask probs (map (fun l => Z.eqb l (Z.of_nat class_id)) labels)
    = Ok cprobs /\
    length cobjs = length cprobs /\
    (0 <= _class_max_detections self)%Z /\
    let kept := nms_loop (_class_nms_threshold self)
                  (Nat.min (Z.to_nat (_class_max_detections self))
                           (length cobjs))
                  (sort_desc cand_score (indexed (combine cobjs cprobs))) [] in
    r = (map cand_box kept, map cand_score kept,
         repeat (Z.of_nat class_id) (length kept)).
Proof.
  unfold class_nms. intro H.
  bind_inv H cobjs E1. bind_inv H cprobs E2. bind_inv H idx E3.
  exists cobjs, cprobs. split; [exact E1|]. split; [exact E2|].
  assert (E3' := E3). apply non_max_suppression_Ok in E3'.
  destruct E3' as (sel & _ & Hnth & _ & _). clear sel Hnth.
  pose proof (non_max_suppression_int32 _ _ _ _ E3) as Ei.
  unfold non_max_suppression in E3. rewrite Ei in E3. cbn [bind] in E3.
  destruct (negb (Qle_bool 0 (_class_nms_threshold self) &&
                  Qle_bool (_class_nms_threshold self) 1)); [discriminate|].
  destruct (_class_max_detections self <? 0)%Z eqn:M0; [discriminate|].
  destruct (negb (length cobjs =? length cprobs)%nat) eqn:L; [discriminate|].
  apply Z.ltb_ge in M0. apply negb_false_iff, Nat.eqb_eq in L.
  split; [exact L|]. split; [exact M0|]. cbv zeta.
  injection E3 as <-.
  set (cands := sort_desc cand_score (indexed (combine cobjs cprobs))) in *.
  set (kept := nms_loop _ _ cands []) in *.
  assert (N : Forall (fun c => nth_error cobjs (cand_index c) = Some (cand_box c) /\
                               nth_error cprobs (cand_index c) = Some (cand_score c))
                     kept).
  { apply Forall_forall. intros c Hc. unfold kept in Hc.
    apply nms_loop_incl in Hc. destruct Hc as [Hc|[]].
    assert (P : Forall (fun c => nth_error (combine cobjs cprobs) (fst c)
                                 = Some (snd c)) cands).
    { eapply Permutation_Forall; [symmetry; apply sort_desc_perm|].
      apply indexed_nth_error. }
    rewrite Forall_forall in P. specialize (P c Hc).
    destruct c as [i [b s]]. simpl in P.
    apply nth_error_combine_inv in P. exact P. }
  rewrite (@gather_map _ _ cobjs kept cand_index cand_box) in H
    by (eapply Forall_impl; [|exact N]; simpl; tauto).
  rewrite (@gather_map _ _ cprobs kept cand_index cand_score) in H
    by (eapply Forall_impl; [|exact N]; simpl; tauto).
  cbn [bind] in H. injection H as <-. rewrite length_map. reflexivity.
Qed.

Lemma build_class_entry (exp : Q -> Q) (self : t)
    (proposals bbox_pred cls_prob : list (list Q)) (im_shape : Q * Q)
    (out : output) (raw objects_tf : list box) (labels : list Z)
    (probs : list Q) (class_id : nat) :
  before_nms exp self proposals bbox_pred cls_prob im_shape
  = Ok (raw, objects_tf, labels, probs) ->
  _build exp self proposals bbox_pred cls_prob im_shape = Ok out ->
  (class_id < _num_classes self)%nat ->
  exists bs ps ls,
    nth_error (selected_boxes out) class_id = Some bs /\
    nth_error (selected_probs out) class_id = Some ps /\
    nth_error (selected_labels out) class_id = Some ls /\
    class_nms self objects_tf labels probs class_id = Ok (bs, ps, ls).
Proof.
  intros Hb H Hc. apply build_Ok in H.
  destruct H as (objects_tf' & labels' & probs' & Hb' & N & _).
  rewrite Hb in Hb'. injection Hb' as _ <- <- <-.
  apply per_class_nms_Ok in N. destruct N as (per_class & -> & -> & -> & F).
  assert (L : length per_class = _num_classes self).
  { apply Forall2_length in F. rewrite length_seq in F. congruence. }
  destruct (nth_error per_class class_id) as [[[bs ps] ls]|] eqn:E.
  - exists bs, ps, ls. rewrite !nth_error_map, E. simpl.
    repeat split.
    exact (@Forall2_seq_nth_error _ _ per_class 0 _ class_id _ F E).
  - apply nth_error_None in E. lia.
Qed.

(** The probabilities selected for a class are in decreasing order. *)
Theorem class_probabilities_are_in_decreasing_order :
  forall (exp : Q -> Q) (self : t)
         (proposals bbox_pred cls_prob : list (list Q)) (im_shape : Q * Q)
         (out : output),
    _build exp self proposals bbox_pred cls_prob im_shape = Ok out ->
    Forall descending (selected_probs out).
Proof.
  intros exp self proposals bbox_pred cls_prob im_shape out H.
  apply build_Ok in H. destruct H as (objects_tf & labels & probs & _ & N & _).
  apply per_class_nms_Ok in N. destruct N as (per_class & _ & -> & _ & F).
  apply Forall_map. clear - F.
  induction F as [|c r cl rs Hr _ IH]; constructor; [|exact IH].
  apply class_nms_inv in Hr.
  destruct Hr as (cobjs & cprobs & _ & _ & _ & _ & ->). cbn [fst snd].
  apply StronglySorted_map. apply nms_loop_sorted. simpl.
  apply (sort_desc_sorted cand_score).
Qed.

Lemma class_probabilities_are_in_decreasing_order_witness :
  exists out,
    _build exp_series Tie.self Tie.proposals Tie.bbox_pred Tie.cls_prob
           Tie.im_shape = Ok out /\
    Forall descending (selected_probs out).
Proof.
  eexists. split; [vm_compute; reflexivity|].
  eapply (@class_probabilities_are_in_decreasing_order
            exp_series Tie.self Tie.proposals Tie.bbox_pred Tie.cls_prob
            Tie.im_shape).
  vm_compute. reflexivity.
Defined.

(** When a class may keep at least one detection, its first selected
    probability is at least the probability of every detection that reached
    the loop with the label of the class: the most probable detection of a
    class is never lost to the suppression. *)
Theorem most_probable_detection_of_a_class_is_selected :
  forall (exp : Q -> Q) (self : t)
         (proposals bbox_pred cls_prob : list (list Q)) (im_shape : Q * Q)
         (out : output) (raw objects_tf : list box) (labels : list Z)
         (probs : list Q) (class_id i : nat) (v : Q),
    before_nms exp self proposals bbox_pred cls_prob im_shape
    = Ok (raw, objects_tf, labels, probs) ->
    _build exp self proposals bbox_pred cls_prob im_shape = Ok out ->
    (1 <= _class_max_detections self)%Z ->
    (class_id < _num_classes self)%nat ->
    nth_error labels i = Some (Z.of_nat class_id) ->
    nth_error probs i = Some v ->
    exists p0 ps,
      nth_error (selected_probs out) class_id = Some (p0 :: ps) /\ v <= p0.
Proof.
  intros exp self proposals bbox_pred cls_prob im_shape out raw objects_tf
         labels probs class_id i v Hb H M1 Hc Hl Hv.
  destruct (build_class_entry exp self proposals bbox_pred cls_prob im_shape
              Hb H Hc) as (bs & ps & ls & _ & Ep & _ & C).
  pose proof (before_nms_facts exp self proposals bbox_pred cls_prob im_shape
                Hb) as (L1 & L2 & _ & _).
  destruct (nth_error objects_tf i) as [b|] eqn:Eb.
  2:{ apply nth_error_None in Eb.
      assert (i < length probs)%nat by (apply nth_error_Some; congruence).
      lia. }
  apply class_nms_inv in C.
  destruct C as (cobjs & cprobs & E1 & E2 & L & M0 & C). cbv zeta in C.
  destruct (class_candidates objects_tf labels probs class_id i E1 E2 Hl Eb Hv)
    as [k Hk].
  set (cands := sort_desc cand_score (indexed (combine cobjs cprobs))) in *.
  assert (Hin : In (k, (b, v)) cands).
  { eapply Permutation_in; [symmetry; apply sort_desc_perm | exact Hk]. }
  assert (Hs : StronglySorted (fun a c => cand_score c <= cand_score a) cands)
    by apply (sort_desc_sorted cand_score).
  assert (Hn : (1 <= length cobjs)%nat).
  { apply In_nth_error in Hk. destruct Hk as [j Hj].
    assert (j < length (indexed (combine cobjs cprobs)))%nat
      by (apply nth_error_Some; congruence).
    rewrite indexed_length, length_combine in H0. lia. }
  destruct cands as [|c0 rest] eqn:Ec; [destruct Hin|].
  cbn [nms_loop length] in C.
  replace (Nat.min (Z.to_nat (_class_max_detections self)) (length cobjs) <=? 0)%nat
    with false in C by (symmetry; apply Nat.leb_gt; lia).
  cbn [existsb] in C.
  destruct (nms_loop_prefix (_class_nms_threshold self)
              (Nat.min (Z.to_nat (_class_max_detections self)) (length cobjs))
              rest [c0]) as [tail Et].
  rewrite Et in C. cbn [rev app map] in C. injection C as _ -> _.
  exists (cand_score c0), (map cand_score tail). split; [exact Ep|].
  destruct Hin as [->|Hin]; [apply Qle_refl|].
  inversion Hs as [|? ? _ H0]; subst. rewrite Forall_forall in H0.
  apply (H0 _ Hin).
Qed.

Lemma most_probable_detection_of_a_class_is_selected_witness :
  exists out raw objects_tf labels probs p0 ps,
    before_nms exp_series Scenario.self Scenario.proposals Scenario.bbox_pred
               Scenario.cls_prob Scenario.im_shape
    = Ok (raw, objects_tf, labels, probs) /\
    _build exp_series Scenario.self Scenario.proposals Scenario.bbox_pred
           Scenario.cls_prob Scenario.im_shape = Ok out /\
    nth_error labels 1 = Some 0%Z /\ nth_error probs 1 = Some (75 # 100) /\
    nth_error (selected_probs out) 0 = Some (p0 :: ps) /\ 75 # 100 <= p0.
Proof.
  assert (Hb : {r | before_nms exp_series Scenario.self Scenario.proposals
                      Scenario.bbox_pred Scenario.cls_prob Scenario.im_shape
                    = Ok r}) by (eexists; vm_compute; reflexivity).
  destruct Hb as [[[[raw objects_tf] labels] probs] Hb].
  assert (Ho : {o | _build exp_series Scenario.self Scenario.proposals
                      Scenario.bbox_pred Scenario.cls_prob Scenario.im_shape
                    = Ok o}) by (eexists; vm_compute; reflexivity).
  destruct Ho as [out Ho].
  assert (El : nth_error labels 1 = Some 0%Z).
  { vm_compute in Hb. injection Hb as _ _ <- _. reflexivity. }
  assert (Ev : nth_error probs 1 = Some (75 # 100)).
  { vm_compute in Hb. injection Hb as _ _ _ <-. reflexivity. }
  destruct (@most_probable_detection_of_a_class_is_selected
              exp_series Scenario.self Scenario.proposals Scenario.bbox_pred
              Scenario.cls_prob Scenario.im_shape out raw objects_tf labels
              probs 0%nat 1%nat (75 # 100) Hb Ho)
    as (p0 & ps & E & Hle); try assumption.
  - simpl. lia.
  - simpl. lia.
  - exists out, raw, objects_tf, labels, probs, p0, ps. auto 10.
Defined.

(** A detection that reached the loop with the label of a class is among the
    selections of the class, or overlaps one of them by more than the
    threshold, or the class has its full [class_max_detections]
    selections: nothing else removes a detection in the loop. *)
Theorem suppression_drops_only_overlapping_or_capped :
  forall (exp : Q -> Q) (self : t)
         (proposals bbox_pred cls_prob : list (list Q)) (im_shape : Q * Q)
         (out : output) (raw objects_tf : list box) (labels : list Z)
         (probs : list Q) (class_id i : nat) (b : box) (v : Q),
    before_nms exp self proposals bbox_pred cls_prob im_shape
    = Ok (raw, objects_tf, labels, probs) ->
    _build exp self proposals bbox_pred cls_prob im_shape = Ok out ->
    (class_id < _num_classes self)%nat ->
    nth_error labels i = Some (Z.of_nat class_id) ->
    nth_error objects_tf i = Some b ->
    nth_error probs i = Some v ->
    exists bs ps,
      nth_error (selected_boxes out) class_id = Some bs /\
      nth_error (selected_probs out) class_id = Some ps /\
      (In (b, v) (combine bs ps) \/
       (exists b', In b' bs /\ _class_nms_threshold self < iou b b') \/
       Z.of_nat (length bs) = _class_max_detections self).
Proof.
  intros exp self proposals bbox_pred cls_prob im_shape out raw objects_tf
         labels probs class_id i b v Hb H Hc Hl Eb Hv.
  destruct (build_class_entry exp self proposals bbox_pred cls_prob im_shape
              Hb H Hc) as (bs & ps & ls & Eb' & Ep & _ & C).
  exists bs, ps. split; [exact Eb'|]. split; [exact Ep|].
  apply class_nms_inv in C.
  destruct C as (cobjs & cprobs & E1 & E2 & L & M0 & C). cbv zeta in C.
  destruct (class_candidates objects_tf labels probs class_id i E1 E2 Hl Eb Hv)
    as [k Hk].
  set (cands := sort_desc cand_score (indexed (combine cobjs cprobs))) in *.
  set (size := Nat.min (Z.to_nat (_class_max_detections self)) (length cobjs))
    in *.
  assert (Hin : In (k, (b, v)) cands).
  { eapply Permutation_in; [symmetry; apply sort_desc_perm | exact Hk]. }
  pose proof (@nms_loop_reach (_class_nms_threshold self) size cands []
                (k, (b, v)) Hin) as R.
  cbv zeta in R.
  pose proof (@nms_loop_length (_class_nms_threshold self) size cands []
                (Nat.le_0_l _)) as Len.
  set (kept := nms_loop (_class_nms_threshold self) size cands []) in *.
  injection C as -> -> _.
  destruct R as [R|[(s & Hs & G)|[R1 R2]]].
  - left. rewrite combine_map_same.
    apply (in_map (fun x => (cand_box x, cand_score x))) in R. exact R.
  - right. left. exists (cand_box s). split; [apply in_map; exact Hs|].
    exact G.
  - right. right. rewrite length_map. simpl in R2.
    assert (Lc : length cands = length cobjs).
    { unfold cands. etransitivity; [apply sort_desc_length|].
      etransitivity; [apply indexed_length|].
      rewrite length_combine. lia. }
    unfold size in *. lia.
Qed.

Lemma suppression_drops_only_overlapping_or_capped_witness :
  exists out raw objects_tf labels probs bs ps,
    before_nms exp_series Scenario.self Scenario.proposals Scenario.bbox_pred
               Scenario.cls_prob Scenario.im_shape
    = Ok (raw, objects_tf, labels, probs) /\
    _build exp_series Scenario.self Scenario.proposals Scenario.bbox_pred
           Scenario.cls_prob Scenario.im_shape = Ok out /\
    nth_error labels 1 = Some 0%Z /\
    nth_error (selected_boxes out) 0 = Some bs /\
    nth_error (selected_probs out) 0 = Some ps /\
    exists b v,
      nth_error objects_tf 1 = Some b /\ nth_error probs 1 = Some v /\
      (In (b, v) (combine bs ps) \/
       (exists b', In b' bs /\ _class_nms_threshold Scenario.self < iou b b') \/
       Z.of_nat (length bs) = _class_max_detections Scenario.self).
Proof.
  assert (Hb : {r | before_nms exp_series Scenario.self Scenario.proposals
                      Scenario.bbox_pred Scenario.cls_prob Scenario.im_shape
                    = Ok r}) by (eexists; vm_compute; reflexivity).
  destruct Hb as [[[[raw objects_tf] labels] probs] Hb].
  assert (Ho : {o | _build exp_series Scenario.self Scenario.proposals
                      Scenario.bbox_pred Scenario.cls_prob Scenario.im_shape
                    = Ok o}) by (eexists; vm_compute; reflexivity).
  destruct Ho as [out Ho].
  assert (El : nth_error labels 1 = Some 0%Z).
  { vm_compute in Hb. injection Hb as _ _ <- _. reflexivity. }
  assert (Eb : {b | nth_error objects_tf 1 = Some b}).
  { vm_compute in Hb. injection Hb as _ <- _ _. eexists. reflexivity. }
  assert (Ev : {v | nth_error probs 1 = Some v}).
  { vm_compute in Hb. injection Hb as _ _ _ <-. eexists. reflexivity. }
  destruct Eb as [b Eb]. destruct Ev as [v Ev].
  destruct (@suppression_drops_only_overlapping_or_capped
              exp_series Scenario.self Scenario.proposals Scenario.bbox_pred
              Scenario.cls_prob Scenario.im_shape out raw objects_tf labels
              probs 0%nat 1%nat b v Hb Ho)
    as (bs & ps & E1 & E2 & D); try assumption.
  - simpl. lia.
  - exists out, raw, objects_tf, labels, probs, bs, ps.
    repeat (split; [assumption|]). exists b, v. auto.
Defined.

(** ** The final selection among the selections of the classes *)

Lemma top_k_map_full {T : Type} (key : T -> Q) (W : list T) (k : Z)
    (vs : list Q) (idx : list nat) :
  top_k (map key W) k = Ok (vs, idx) ->
  exists sel rest : list (nat * T),
    idx = map fst sel /\ vs = map (fun c => key (snd c)) sel /\
    Forall (fun c => nth_error W (fst c) = Some (snd c)) sel /\
    Permutation (map snd sel ++ map snd rest) W /\
    Z.of_nat (length sel) = k /\
    forall a b, In a sel -> In b rest -> key (snd b) <= key (snd a).
Proof.
  unfold top_k. destruct (k <? 0)%Z eqn:K0; [discriminate|].
  destruct (Z.of_nat (length (map key W)) <? k)%Z eqn:K1; [discriminate|].
  apply Z.ltb_ge in K0, K1. rewrite length_map in K1.
  intro H. injection H as <- <-.
  rewrite indexed_map.
  rewrite (sort_desc_map snd (fun c : nat * T => (fst c, key (snd c)))).
  cbn [snd].
  set (sorted := sort_desc (fun a : nat * T => key (snd a)) (indexed W)).
  assert (Ls : length sorted = length W).
  { unfold sorted. etransitivity; [apply sort_desc_length|].
    apply indexed_length. }
  exists (firstn (Z.to_nat k) sorted), (skipn (Z.to_nat k) sorted).
  rewrite !firstn_map, !map_map. cbn [fst snd].
  split; [reflexivity|]. split; [reflexivity|]. split; [|split; [|split]].
  - apply Forall_forall. intros c Hc. apply In_firstn_In in Hc.
    revert c Hc. apply Forall_forall.
    eapply Permutation_Forall; [symmetry; apply sort_desc_perm|].
    apply indexed_nth_error.
  - rewrite <- map_app, firstn_skipn.
    pose proof (Permutation_map snd
                  (sort_desc_perm (fun a : nat * T => key (snd a)) (indexed W)))
      as M.
    rewrite map_snd_indexed in M. exact M.
  - rewrite length_firstn, Ls. lia.
  - intros a b Ha Hb.
    pose proof (sort_desc_sorted (fun a : nat * T => key (snd a)) (indexed W))
      as S.
    fold sorted in S. rewrite <- (firstn_skipn (Z.to_nat k) sorted) in S.
    exact (@StronglySorted_app_between _ _ _ _ S a b Ha Hb).
Qed.

Lemma top_k_selection_full {T : Type} (self : t)
    (boxf : T -> box) (scoref : T -> Q) (labf : T -> Z) (W : list T)
    (sb : list (list box)) (sp : list (list Q)) (sl : list (list Z))
    (objs : list box) (labs : list Z) (vals : list Q) :
  concat sb = map boxf W -> concat sp = map scoref W ->
  concat sl = map labf W ->
  top_k_selection self sb sp sl = Ok (objs, labs, vals) ->
  exists picked rest,
    Permutation (picked ++ rest) W /\
    objs = map (fun w => change_order_box (boxf w)) picked /\
    labs = map labf picked /\ vals = map scoref picked /\
    Z.of_nat (length picked)
    = Z.min (_total_max_detections self) (Z.of_nat (length W)) /\
    forall p r, In p picked -> In r rest -> scoref r <= scoref p.
Proof.
  intros Eb Ep El. unfold top_k_selection, concat0.
  destruct sb as [|b0 sb]; [discriminate|].
  destruct sl as [|l0 sl]; [discriminate|].
  destruct sp as [|p0 sp]; [discriminate|].
  cbn [bind]. rewrite Eb, Ep, El. intro H.
  bind_inv H cap Ecap. apply int32_Ok in Ecap. destruct Ecap as [-> _].
  bind_inv H vi E4. destruct vi as [values indices].
  bind_inv H tobjs E5. bind_inv H tlabs E6. injection H as <- <- <-.
  apply top_k_map_full in E4.
  destruct E4 as (sel & rest & -> & -> & Hnth & Prest & Hlen & Hopt).
  exists (map snd sel), (map snd rest). split; [exact Prest|].
  unfold change_order in E5. rewrite map_map in E5.
  rewrite (@gather_map _ _ (map (fun x => change_order_box (boxf x)) W) sel fst
             (fun c => change_order_box (boxf (snd c)))) in E5.
  2:{ eapply Forall_impl; [|exact Hnth]. simpl. intros c Hc.
      rewrite nth_error_map, Hc. reflexivity. }
  rewrite (@gather_map _ _ (map labf W) sel fst (fun c => labf (snd c))) in E6.
  2:{ eapply Forall_impl; [|exact Hnth]. simpl. intros c Hc.
      rewrite nth_error_map, Hc. reflexivity. }
  injection E5 as <-. injection E6 as <-.
  rewrite !map_map, !length_map in *.
  repeat split; try reflexivity; [exact Hlen|].
  intros p r Hp Hr. apply in_map_iff in Hp, Hr.
  destruct Hp as (a & <- & Ha). destruct Hr as (b & <- & Hb).
  apply Hopt; assumption.
Qed.

Lemma tag_from_columns (self : t) (objects_tf : list box) (labels : list Z)
    (probs : list Q) (n s : nat)
    (per_class : list (list box * list Q * list Z)) :
  Forall2 (fun c r => class_nms self objects_tf labels probs c = Ok r)
          (seq s n) per_class ->
  let sb := map (fun r => fst (fst r)) per_class in
  let sp := map (fun r => snd (fst r)) per_class in
  let T := tag_from s sb sp in
  concat sb = map (fun w => fst (snd w)) T /\
  concat sp = map (fun w => snd (snd w)) T /\
  concat (map snd per_class) = map (fun w => Z.of_nat (fst w)) T /\
  Forall (fun w => (s <= fst w < s + n)%nat /\ In (fst (snd w)) objects_tf /\
                   In (snd (snd w)) probs) T.
Proof.
  revert s per_class. induction n as [|n IH]; intros s per_class F;
    simpl in F.
  - inversion F; subst. simpl. repeat split; constructor.
  - inversion F as [|? r ? rs Hr F']; subst.
    destruct (IH (S s) rs F') as (B & P & L & I). clear IH.
    destruct r as [[bs ps] ls].
    destruct (@class_nms_Ok_more self objects_tf labels probs s _ _ _ Hr)
      as (Ib & Ip & _).
    apply class_nms_Ok in Hr. destruct Hr as (sel & E & _).
    injection E as -> -> ->.
    cbn [map concat fst snd tag_from] in *.
    rewrite !map_app, !map_map. cbn [fst snd].
    rewrite combine_map_same, !map_map. cbn [fst snd].
    split; [f_equal; exact B|]. split; [f_equal; exact P|].
    split.
    { f_equal; [|exact L]. clear. induction sel; simpl; [reflexivity|].
      f_equal. assumption. }
    apply Forall_app. split.
    + apply Forall_map. apply Forall_forall. intros c Hc. cbn [fst snd].
      split; [lia|]. split.
      * rewrite Forall_forall in Ib. apply Ib. apply in_map. exact Hc.
      * rewrite Forall_forall in Ip. apply Ip. apply in_map. exact Hc.
    + eapply Forall_impl; [|exact I]. intros w (H1 & H2 & H3).
      split; [lia | split; assumption].
Qed.

(** The stages before the loop hand over the clipped raw objects, in
    TensorFlow's convention, with as many labels and probabilities. *)
Lemma before_nms_objects (exp : Q -> Q) (self : t)
    (proposals bbox_pred cls_prob : list (list Q)) (im_shape : Q * Q)
    (raw objects_tf : list box) (labels : list Z) (probs : list Q) :
  before_nms exp self proposals bbox_pred cls_prob im_shape
  = Ok (raw, objects_tf, labels, probs) ->
  objects_tf = change_order (clip_boxes raw im_shape).
Proof.
  unfold before_nms. intro H.
  bind_inv H la E1. destruct la as [[[p l] v] b].
  bind_inv H d E2. bind_inv H raw' E3. bind_inv H vf E4.
  destruct vf as [[o l'] v'].
  apply label_assignment_facts in E1. destruct E1 as (Lp & Lv & Fv).
  apply decode_Ok_length in E3.
  rewrite validity_filter_id in E4
    by (unfold clip_boxes; rewrite length_map; congruence).
  injection E4 as <- <- <-. injection H as <- <- <- <-. reflexivity.
Qed.

(** The structure of an output: its detections are some of the selections of
    the classes, co-indexed. *)
Lemma build_picked (exp : Q -> Q) (self : t)
    (proposals bbox_pred cls_prob : list (list Q)) (im_shape : Q * Q)
    (out : output) :
  _build exp self proposals bbox_pred cls_prob im_shape = Ok out ->
  exists picked rest : list (nat * (box * Q)),
    Permutation (picked ++ rest) (class_detections out) /\
    objects out = map (fun w => change_order_box (fst (snd w))) picked /\
    proposal_label out = map (fun w => Z.of_nat (fst w)) picked /\
    proposal_label_prob out = map (fun w => snd (snd w)) picked /\
    Z.of_nat (length picked)
    = Z.min (_total_max_detections self)
            (Z.of_nat (length (class_detections out))) /\
    (forall p r, In p picked -> In r rest -> snd (snd r) <= snd (snd p)) /\
    Forall (fun w => (fst w < _num_classes self)%nat /\
                     In (change_order_box (fst (snd w)))
                        (clip_boxes (raw_objects out) im_shape) /\
                     _min_prob_threshold self <= snd (snd w))
           (class_detections out) /\
    concat (selected_boxes out)
    = map (fun w => fst (snd w)) (class_detections out) /\
    concat (selected_probs out)
    = map (fun w => snd (snd w)) (class_detections out).
Proof.
  intro H. apply build_Ok in H.
  destruct H as (objects_tf & labels & probs & Hb & Hn & Hk).
  pose proof (before_nms_objects exp self proposals bbox_pred cls_prob
                im_shape Hb) as EX.
  pose proof (before_nms_facts exp self proposals bbox_pred cls_prob
                im_shape Hb) as (_ & _ & _ & Hthr).
  apply per_class_nms_Ok in Hn.
  destruct Hn as (per_class & Esb & Esp & Esl & F).
  destruct (@tag_from_columns self objects_tf labels probs
              (_num_classes self) 0 per_class F) as (B & P & L & I).
  cbv zeta in B, P, L, I.
  unfold class_detections. rewrite Esb, Esp.
  rewrite Esb, Esp, Esl in Hk.
  destruct (@top_k_selection_full _ self
              (fun w : nat * (box * Q) => fst (snd w))
              (fun w : nat * (box * Q) => snd (snd w))
              (fun w : nat * (box * Q) => Z.of_nat (fst w))
              _ _ _ _ _ _ _ B P L Hk)
    as (picked & rest & Pw & Eo & El & Ev & Hlen & Hopt).
  exists picked, rest. repeat split; try assumption.
  eapply Forall_impl; [|exact I]. intros w (H1 & H2 & H3).
  split; [lia|]. split.
  - rewrite EX in H2. unfold change_order in H2. apply in_map_iff in H2.
    destruct H2 as (c & Ec & Hc). rewrite <- Ec.
    rewrite change_order_box_involutive. exact Hc.
  - rewrite Forall_forall in Hthr. apply Hthr. exact H3.
Qed.

Lemma tag_from_In (sb : list (list box)) (sp : list (list Q)) (s : nat)
    (w : nat * (box * Q)) :
  In w (tag_from s sb sp) ->
  exists bs ps j,
    (s <= fst w)%nat /\
    nth_error sb (fst w - s) = Some bs /\
    nth_error sp (fst w - s) = Some ps /\
    nth_error bs j = Some (fst (snd w)) /\
    nth_error ps j = Some (snd (snd w)).
Proof.
  revert sp s. induction sb as [|bs sb IH]; intros [|ps sp] s H; simpl in H;
    try destruct H.
  apply in_app_or in H. destruct H as [H|H].
  - apply in_map_iff in H. destruct H as ([b p] & <- & Hbp).
    apply In_nth_error in Hbp. destruct Hbp as [j Hj].
    apply nth_error_combine_inv in Hj. destruct Hj as [Hb Hp].
    exists bs, ps, j. cbn [fst snd]. rewrite Nat.sub_diag. simpl. auto.
  - destruct (IH sp (S s) H) as (bs' & ps' & j & Hs & Eb & Ep & Hb & Hp).
    exists bs', ps', j.
    replace (fst w - s)%nat with (S (fst w - S s)) by lia. simpl.
    repeat split; try assumption. lia.
Qed.

(** Every detection of the output comes from the selections of the class
    its label names: its box (back in TensorFlow's convention) and its
    probability stand at one position of the boxes and the probabilities
    selected for that class. *)
Theorem output_detections_come_from_their_class :
  forall (exp : Q -> Q) (self : t)
         (proposals bbox_pred cls_prob : list (list Q)) (im_shape : Q * Q)
         (out : output) (i : nat) (b : box) (l : Z) (p : Q),
    _build exp self proposals bbox_pred cls_prob im_shape = Ok out ->
    nth_error (objects out) i = Some b ->
    nth_error (proposal_label out) i = Some l ->
    nth_error (proposal_label_prob out) i = Some p ->
    exists (class_id : nat) (bs : list box) (ps : list Q) (j : nat),
      l = Z.of_nat class_id /\
      nth_error (selected_boxes out) class_id = Some bs /\
      nth_error (selected_probs out) class_id = Some ps /\
      nth_error bs j = Some (change_order_box b) /\
      nth_error ps j = Some p.
Proof.
  intros exp self proposals bbox_pred cls_prob im_shape out i b l p H Hb Hl Hp.
  destruct (build_picked exp self proposals bbox_pred cls_prob im_shape H)
    as (picked & rest & Pw & Eo & El & Ev & _).
  rewrite Eo, nth_error_map in Hb. rewrite El, nth_error_map in Hl.
  rewrite Ev, nth_error_map in Hp.
  destruct (nth_error picked i) as [w|] eqn:E; [|discriminate].
  simpl in Hb, Hl, Hp. injection Hb as <-. injection Hl as <-.
  injection Hp as <-.
  assert (Hw : In w (class_detections out)).
  { eapply Permutation_in; [exact Pw|]. apply in_or_app. left.
    eapply nth_error_In. exact E. }
  apply tag_from_In in Hw.
  destruct Hw as (bs & ps & j & _ & Eb & Ep & Hb & Hp).
  rewrite Nat.sub_0_r in Eb, Ep.
  exists (fst w), bs, ps, j. rewrite change_order_box_involutive. auto.
Qed.

Lemma output_detections_come_from_their_class_witness :
  exists out (class_id : nat) (bs : list box) (ps : list Q) (j : nat),
    _build exp_series Scenario.self Scenario.proposals Scenario.bbox_pred
           Scenario.cls_prob Scenario.im_shape = Ok out /\
    nth_error (proposal_label out) 0 = Some (Z.of_nat class_id) /\
    nth_error (selected_boxes out) class_id = Some bs /\
    nth_error (selected_probs out) class_id = Some ps /\
    nth_error ps j = Some (9 # 10).
Proof.
  assert (Ho : {o | _build exp_series Scenario.self Scenario.proposals
                      Scenario.bbox_pred Scenario.cls_prob Scenario.im_shape
                    = Ok o}) by (eexists; vm_compute; reflexivity).
  destruct Ho as [out Ho].
  assert (Eb : {b | nth_error (objects out) 0 = Some b}).
  { vm_compute in Ho. injection Ho as <-. eexists. reflexivity. }
  destruct Eb as [b Eb].
  assert (El : nth_error (proposal_label out) 0 = Some 1%Z).
  { vm_compute in Ho. injection Ho as <-. reflexivity. }
  assert (Ep : nth_error (proposal_label_prob out) 0 = Some (9 # 10)).
  { vm_compute in Ho. injection Ho as <-. reflexivity. }
  destruct (@output_detections_come_from_their_class
              exp_series Scenario.self Scenario.proposals Scenario.bbox_pred
              Scenario.cls_prob Scenario.im_shape out 0%nat b 1%Z (9 # 10)
              Ho Eb El Ep)
    as (c & bs & ps & j & E1 & E2 & E3 & E4 & E5).
  exists out, c, bs, ps, j. rewrite <- E1. auto 10.
Defined.

(** The output has exactly as many detections as [total_max_detections]
    allows among those the classes selected: the smaller of the two
    numbers. *)
Theorem output_count_is_the_smaller_of_cap_and_selections :
  forall (exp : Q -> Q) (self : t)
         (proposals bbox_pred cls_prob : list (list Q)) (im_shape : Q * Q)
         (out : output),
    _build exp self proposals bbox_pred cls_prob im_shape = Ok out ->
    Z.of_nat (length (objects out))
    = Z.min (_total_max_detections self)
            (Z.of_nat (length (concat (selected_boxes out)))).
Proof.
  intros exp self proposals bbox_pred cls_prob im_shape out H.
  destruct (build_picked exp self proposals bbox_pred cls_prob im_shape H)
    as (picked & rest & _ & Eo & _ & _ & Hlen & _ & _ & Eb & _).
  rewrite Eo, Eb, !length_map. exact Hlen.
Qed.

Lemma output_count_is_the_smaller_of_cap_and_selections_witness :
  exists out,
    _build exp_series Scenario.self Scenario.proposals Scenario.bbox_pred
           Scenario.cls_prob Scenario.im_shape = Ok out /\
    Z.of_nat (length (objects out))
    = Z.min (_total_max_detections Scenario.self)
            (Z.of_nat (length (concat (selected_boxes out)))).
Proof.
  eexists. split; [vm_compute; reflexivity|].
  eapply (@output_count_is_the_smaller_of_cap_and_selections
            exp_series Scenario.self Scenario.proposals Scenario.bbox_pred
            Scenario.cls_prob Scenario.im_shape).
  vm_compute. reflexivity.
Defined.

(** The probabilities of the output are some of the probabilities the
    classes selected, and none that is left out is larger than one that is
    returned. *)
Theorem top_k_leaves_out_only_less_probable :
  forall (exp : Q -> Q) (self : t)
         (proposals bbox_pred cls_prob : list (list Q)) (im_shape : Q * Q)
         (out : output),
    _build exp self proposals bbox_pred cls_prob im_shape = Ok out ->
    exists left_out : list Q,
      Permutation (proposal_label_prob out ++ left_out)
                  (concat (selected_probs out)) /\
      forall p r, In p (proposal_label_prob out) -> In r left_out -> r <= p.
Proof.
  intros exp self proposals bbox_pred cls_prob im_shape out H.
  destruct (build_picked exp self proposals bbox_pred cls_prob im_shape H)
    as (picked & rest & Pw & _ & _ & Ev & _ & Hopt & _ & _ & Ep).
  exists (map (fun w : nat * (box * Q) => snd (snd w)) rest). split.
  - rewrite Ev, Ep, <- map_app. apply Permutation_map. exact Pw.
  - intros p r Hp Hr. rewrite Ev in Hp. apply in_map_iff in Hp, Hr.
    destruct Hp as (a & <- & Ha). destruct Hr as (c & <- & Hc).
    apply Hopt; assumption.
Qed.

(** The same scenario with room for a single detection. *)
Lemma top_k_leaves_out_only_less_probable_witness :
  exists out left_out,
    _build exp_series
           (__init__ 2 {| class_max_detections := 10;
                          class_nms_threshold := 3 # 10;
                          total_max_detections := 1;
                          min_prob_threshold := Some (5 # 10) |})
           Scenario.proposals Scenario.bbox_pred Scenario.cls_prob
           Scenario.im_shape = Ok out /\
    Permutation (proposal_label_prob out ++ left_out)
                (concat (selected_probs out)) /\
    forall p r, In p (proposal_label_prob out) -> In r left_out -> r <= p.
Proof.
  assert (Ho : {o | _build exp_series
                      (__init__ 2 {| class_max_detections := 10;
                                     class_nms_threshold := 3 # 10;
                                     total_max_detections := 1;
                                     min_prob_threshold := Some (5 # 10) |})
                      Scenario.proposals Scenario.bbox_pred Scenario.cls_prob
                      Scenario.im_shape = Ok o})
    by (eexists; vm_compute; reflexivity).
  destruct Ho as [out Ho].
  destruct (top_k_leaves_out_only_less_probable _ _ _ _ _ _ Ho)
    as (left_out & Hp & Hle).
  exists out, left_out. auto.
Defined.

(** The three columns of the output have one length; every label is the
    number of a class, every probability reaches the threshold, and every
    box is one of the clipped boxes. *)
Theorem output_columns_are_co_indexed_and_in_range :
  forall (exp : Q -> Q) (self : t)
         (proposals bbox_pred cls_prob : list (list Q)) (im_shape : Q * Q)
         (out : output),
    _build exp self proposals bbox_pred cls_prob im_shape = Ok out ->
    length (proposal_label out) = length (objects out) /\
    length (proposal_label_prob out) = length (objects out) /\
    Forall (fun l => (0 <= l < Z.of_nat (_num_classes self))%Z)
           (proposal_label out) /\
    Forall (fun p => _min_prob_threshold self <= p)
           (proposal_label_prob out) /\
    incl (objects out) (clip_boxes (raw_objects out) im_shape).
Proof.
  intros exp self proposals bbox_pred cls_prob im_shape out H.
  destruct (build_picked exp self proposals bbox_pred cls_prob im_shape H)
    as (picked & rest & Pw & Eo & El & Ev & _ & _ & I & _).
  assert (Hin : forall w, In w picked -> In w (class_detections out)).
  { intros w Hw. eapply Permutation_in; [exact Pw|].
    apply in_or_app. left. exact Hw. }
  rewrite Forall_forall in I.
  rewrite Eo, El, Ev, !length_map. repeat split.
  - apply Forall_forall. intros l Hl. apply in_map_iff in Hl.
    destruct Hl as (w & <- & Hw). destruct (I w (Hin w Hw)) as (H1 & _). lia.
  - apply Forall_forall. intros p Hp. apply in_map_iff in Hp.
    destruct Hp as (w & <- & Hw). destruct (I w (Hin w Hw)) as (_ & _ & H3).
    exact H3.
  - intros b Hb. apply in_map_iff in Hb.
    destruct Hb as (w & <- & Hw). destruct (I w (Hin w Hw)) as (_ & H2 & _).
    exact H2.
Qed.

Lemma output_columns_are_co_indexed_and_in_range_witness :
  exists out,
    _build exp_series Scenario.self Scenario.proposals Scenario.bbox_pred
           Scenario.cls_prob Scenario.im_shape = Ok out /\
    length (proposal_label out) = length (objects out) /\
    length (proposal_label_prob out) = length (objects out) /\
    Forall (fun l => (0 <= l < Z.of_nat (_num_classes Scenario.self))%Z)
           (proposal_label out) /\
    Forall (fun p => _min_prob_threshold Scenario.self <= p)
           (proposal_label_prob out) /\
    incl (objects out) (clip_boxes (raw_objects out) Scenario.im_shape).
Proof.
  eexists. split; [vm_compute; reflexivity|].
  eapply (@output_columns_are_co_indexed_and_in_range
            exp_series Scenario.self Scenario.proposals Scenario.bbox_pred
            Scenario.cls_prob Scenario.im_shape).
  vm_compute. reflexivity.
Defined.

(** ** The deltas of the assigned class *)

Lemma mapM_app {A B : Type} (f : A -> result B) (l1 l2 : list A) :
  mapM f (l1 ++ l2)
  = (r1 <- mapM f l1 ;; r2 <- mapM f l2 ;; Ok (r1 ++ r2)).
Proof.
  induction l1 as [|x l1 IH]; simpl.
  - destruct (mapM f l2); reflexivity.
  - destruct (f x) as [y|e]; simpl; [|reflexivity].
    rewrite IH. destruct (mapM f l1) as [r1|e]; simpl; [|reflexivity].
    destruct (mapM f l2); reflexivity.
Qed.

Lemma where_from_app (m1 m2 : list bool) (s : nat) :
  where_from s (m1 ++ m2)
  = where_from s m1 ++ where_from (s + length m1) m2.
Proof.
  revert s. induction m1 as [|b m1 IH]; intro s; simpl.
  - rewrite Nat.add_0_r. reflexivity.
  - rewrite IH. replace (S s + length m1)%nat with (s + S (length m1))%nat
      by lia.
    destruct b; reflexivity.
Qed.

Lemma where_from_one_hot (l : Z) (s a n : nat) :
  where_from s (map (fun j => Z.eqb (Z.of_nat j) l) (seq a n))
  = if ((Z.of_nat a <=? l) && (l <? Z.of_nat (a + n)))%Z
    then [(s + (Z.to_nat l - a))%nat] else [].
Proof.
  revert s a. induction n as [|n IH]; intros s a.
  - simpl. destruct (Z.leb_spec (Z.of_nat a) l), (Z.ltb_spec l (Z.of_nat (a + 0)));
      simpl; try reflexivity. lia.
  - cbn [seq map where_from]. rewrite IH.
    destruct (Z.eqb_spec (Z.of_nat a) l) as [E|E].
    + destruct (Z.leb_spec (Z.of_nat (S a)) l); [lia|]. cbn [andb].
      destruct (Z.leb_spec (Z.of_nat a) l); [|lia].
      destruct (Z.ltb_spec l (Z.of_nat (a + S n))); [|lia]. cbn [andb].
      f_equal. lia.
    + destruct (Z.leb_spec (Z.of_nat (S a)) l),
               (Z.leb_spec (Z.of_nat a) l),
               (Z.ltb_spec l (Z.of_nat (S a + n))),
               (Z.ltb_spec l (Z.of_nat (a + S n)));
        cbn [andb]; try reflexivity; try lia.
      f_equal. lia.
Qed.

Lemma length_chunks (n : nat) (row : list Q) : length (chunks n row) = n.
Proof.
  revert row. induction n as [|n IH]; intro row; simpl; [reflexivity|].
  rewrite IH. reflexivity.
Qed.

Lemma nth_error_chunks (n l : nat) (row : list Q) :
  (l < n)%nat ->
  nth_error (chunks n row) l = Some (firstn 4 (skipn (4 * l) row)).
Proof.
  revert l row. induction n as [|n IH]; intros l row H; [lia|].
  destruct l as [|l].
  - reflexivity.
  - cbn [chunks nth_error]. rewrite IH by lia. rewrite skipn_skipn.
    do 3 f_equal. lia.
Qed.

Lemma rows_of_4_chunks (n : nat) (row rest : list Q) :
  length row = (4 * n)%nat ->
  rows_of_4 (row ++ rest)
  = (rs <- rows_of_4 rest ;; Ok (chunks n row ++ rs)).
Proof.
  revert row. induction n as [|n IH]; intros row H.
  - destruct row; [|simpl in H; lia]. simpl.
    destruct (rows_of_4 rest); reflexivity.
  - destruct row as [|a [|b [|c [|d row]]]]; simpl in H; try lia.
    cbn [app rows_of_4 chunks firstn skipn]. rewrite IH by lia.
    destruct (rows_of_4 rest); reflexivity.
Qed.

Lemma reshape_4_blocks (n : nat) (bbox_pred : list (list Q)) :
  Forall (fun row => length row = (4 * n)%nat) bbox_pred ->
  reshape_4 bbox_pred = Ok (concat (map (chunks n) bbox_pred)).
Proof.
  unfold reshape_4, flatten. induction 1 as [|row rows Hr _ IH].
  - reflexivity.
  - cbn [concat map]. rewrite (@rows_of_4_chunks n row _ Hr), IH. reflexivity.
Qed.

Lemma length_concat_blocks {A B : Type} (f : A -> list B) (n : nat)
    (l : list A) :
  (forall x, length (f x) = n) ->
  length (concat (map f l)) = (length l * n)%nat.
Proof.
  intro H. induction l as [|x l IH]; simpl; [reflexivity|].
  rewrite length_app, H, IH. reflexivity.
Qed.

Lemma gather_blocks (n : nat) (labels : list Z) (rows pre : list (list Q)) :
  length labels = length rows ->
  Forall (fun l => (0 <= l < Z.of_nat n)%Z) labels ->
  gather (pre ++ concat (map (chunks n) rows))
         (where_from (length pre) (flatten (one_hot labels n)))
  = Ok (map (fun lr => class_deltas (fst lr) (snd lr)) (combine labels rows)).
Proof.
  revert rows pre. induction labels as [|l labels IH];
    intros [|row rows] pre Hlen F; try discriminate.
  - reflexivity.
  - inversion F as [|? ? Hl F']; subst.
    unfold flatten, one_hot in *. cbn [map concat combine].
    rewrite where_from_app, where_from_one_hot.
    destruct (Z.leb_spec (Z.of_nat 0) l); [|lia].
    destruct (Z.ltb_spec l (Z.of_nat (0 + n))); [|lia]. cbn [andb].
    unfold gather in *. cbn [app mapM].
    replace (nth_error (pre ++ chunks n row ++ concat (map (chunks n) rows))
                       (length pre + (Z.to_nat l - 0)))
      with (Some (class_deltas l row)).
    2:{ rewrite nth_error_app2 by lia.
        replace (length pre + (Z.to_nat l - 0) - length pre)%nat
          with (Z.to_nat l) by lia.
        rewrite nth_error_app1 by (rewrite length_chunks; lia).
        rewrite nth_error_chunks by lia. reflexivity. }
    cbn [bind]. rewrite length_map, length_seq.
    pose proof (IH rows (pre ++ chunks n row)) as IH'.
    rewrite length_app, length_chunks, <- app_assoc in IH'.
    rewrite IH' by (simpl in Hlen; auto; lia). reflexivity.
Qed.

Lemma gather_deltas_columns :
  forall (self : t) (labels : list Z) (bbox_pred : list (list Q)),
    length labels = length bbox_pred ->
    Forall (fun l => (0 <= l < Z.of_nat (_num_classes self))%Z) labels ->
    Forall (fun row => length row = (4 * _num_classes self)%nat) bbox_pred ->
    gather_deltas self labels bbox_pred
    = Ok (map (fun lr => class_deltas (fst lr) (snd lr))
              (combine labels bbox_pred)).
Proof.
  intros self labels bbox_pred Hlen F W.
  unfold gather_deltas. rewrite (@reshape_4_blocks _ _ W). cbn [bind].
  rewrite (@length_concat_blocks _ _ (chunks (_num_classes self))
             (_num_classes self))
    by (intro; apply length_chunks).
  unfold flatten at 1, one_hot at 1.
  rewrite (@length_concat_blocks _ _ _ (_num_classes self))
    by (intro; rewrite length_map, length_seq; reflexivity).
  rewrite Hlen. unfold assert_equal. rewrite Nat.eqb_refl. cbn [bind].
  unfold boolean_mask, where_.
  exact (@gather_blocks (_num_classes self) labels bbox_pred [] Hlen F).
Qed.

(** When every row of [bbox_pred] holds four columns for each class and the
    labels are numbers of classes, lines 103-120 return, for every row, the
    four columns of the class of its label. *)
Theorem gather_deltas_takes_the_columns_of_the_label :
  forall (self : t) (labels : list Z) (bbox_pred : list (list Q)),
    length labels = length bbox_pred ->
    Forall (fun l => (0 <= l < Z.of_nat (_num_classes self))%Z) labels ->
    Forall (fun row => length row = (4 * _num_classes self)%nat) bbox_pred ->
    gather_deltas self labels bbox_pred
    = Ok (map (fun lr => class_deltas (fst lr) (snd lr))
              (combine labels bbox_pred)).
Proof. exact gather_deltas_columns. Qed.

Lemma gather_deltas_takes_the_columns_of_the_label_witness :
  gather_deltas Scenario.self [1%Z; 0%Z]
                [[1; 2; 3; 4; 5; 6; 7; 8]; [9; 10; 11; 12; 13; 14; 15; 16]]
  = Ok [[5; 6; 7; 8]; [9; 10; 11; 12]].
Proof.
  apply (@gather_deltas_takes_the_columns_of_the_label
           Scenario.self [1%Z; 0%Z]
           [[1; 2; 3; 4; 5; 6; 7; 8]; [9; 10; 11; 12; 13; 14; 15; 16]]).
  - reflexivity.
  - repeat (apply Forall_cons;
            [vm_compute; split; [discriminate|reflexivity]|]).
    apply Forall_nil.
  - repeat (apply Forall_cons; [reflexivity|]). apply Forall_nil.
Defined.





(** ** Edges: no class, no surviving proposal *)

(** With no class there is nothing to concatenate at line 179: [_build]
    fails, whatever its inputs. *)
Theorem no_class_no_output :
  forall (exp : Q -> Q) (self : t)
         (proposals bbox_pred cls_prob : list (list Q)) (im_shape : Q * Q),
    _num_classes self = 0%nat ->
    exists e,
      _build exp self proposals bbox_pred cls_prob im_shape = Err e.
Proof.
  intros exp self proposals bbox_pred cls_prob im_shape H0.
  destruct (_build exp self proposals bbox_pred cls_prob im_shape)
    as [out|e] eqn:H; [|exists e; reflexivity].
  exfalso. apply build_Ok in H.
  destruct H as (objects_tf & labels & probs & _ & Hn & Hk).
  apply per_class_nms_Ok in Hn.
  destruct Hn as (per_class & Esb & _ & _ & F).
  rewrite H0 in F. inversion F; subst. simpl in Esb. rewrite Esb in Hk.
  discriminate.
Qed.

Lemma no_class_no_output_witness :
  exists e,
    _build exp_series (__init__ 0 Scenario.cfg) Scenario.proposals
           Scenario.bbox_pred Scenario.cls_prob Scenario.im_shape = Err e.
Proof.
  apply (@no_class_no_output exp_series (__init__ 0 Scenario.cfg)
           Scenario.proposals Scenario.bbox_pred Scenario.cls_prob
           Scenario.im_shape).
  reflexivity.
Defined.

Lemma class_nms_of_nothing (self : t) (class_id : nat) :
  0 <= _class_nms_threshold self -> _class_nms_threshold self <= 1 ->
  (0 <= _class_max_detections self <= 2147483647)%Z ->
  class_nms self [] [] [] class_id = Ok ([], [], []).
Proof.
  intros H0 H1 Hc. unfold class_nms. cbn [map boolean_mask where_ where_from
                                          gather mapM bind].
  unfold non_max_suppression. rewrite int32_in_range by lia. cbn [bind].
  apply Qle_bool_iff in H0. apply Qle_bool_iff in H1. rewrite H0, H1.
  cbn [andb negb]. destruct (Z.ltb_spec (_class_max_detections self) 0);
    [lia|].
  cbn [length Nat.eqb negb combine indexed seq sort_desc].
  rewrite Nat.min_0_r. reflexivity.
Qed.

Lemma map_const_seq {A : Type} (x : A) (len s : nat) :
  map (fun _ => x) (seq s len) = repeat x len.
Proof.
  revert s. induction len as [|len IH]; intro s; simpl; [reflexivity|].
  rewrite IH. reflexivity.
Qed.

Lemma concat_repeat_nil {A : Type} (n : nat) :
  concat (repeat (@nil A) n) = [].
Proof. induction n; simpl; [reflexivity | assumption]. Qed.

(** When every row of [cls_prob] has the background as its most probable
    column or a maximum below the threshold, and the configuration is one
    the ops accept (a threshold in [0,1], caps that are not negative and
    fit an int32, at least one class), [_build] returns empty tensors and
    an empty selection for every class. *)
Theorem no_survivor_gives_empty_output :
  forall (exp : Q -> Q) (self : t)
         (proposals bbox_pred cls_prob : list (list Q)) (im_shape : Q * Q),
    length proposals = length cls_prob ->
    length bbox_pred = length cls_prob ->
    Forall (fun row => row <> [] /\
                       ((label_fn row < 0)%Z \/
                        prob_fn row < _min_prob_threshold self)) cls_prob ->
    0 <= _class_nms_threshold self -> _class_nms_threshold self <= 1 ->
    (0 <= _class_max_detections self <= 2147483647)%Z ->
    (0 <= _total_max_detections self <= 2147483647)%Z ->
    (1 <= _num_classes self)%nat ->
    _build exp self proposals bbox_pred cls_prob im_shape
    = Ok {| raw_objects := [];
            objects := [];
            proposal_label := [];
            proposal_label_prob := [];
            selected_boxes := repeat [] (_num_classes self);
            selected_probs := repeat [] (_num_classes self);
            selected_labels := repeat [] (_num_classes self) |}.
Proof.
  intros exp self proposals bbox_pred cls_prob im_shape Hp Hb F H0 H1 Hc Ht Hn.
  unfold _build, before_nms.
  rewrite label_assignment_filter;
    [| unfold strip_batch_id; rewrite length_map; assumption
     | assumption
     | eapply Forall_impl; [|exact F]; intros row [Hr _]; exact Hr ].
  rewrite filter_none.
  2:{ apply Forall_forall. intros (p & l & v & d) Hr.
      unfold assigned_rows in Hr. apply in_combine_r in Hr.
      apply In_nth_error in Hr. destruct Hr as [k Hk].
      apply nth_error_combine_inv in Hk. destruct Hk as [Hl Hk].
      apply nth_error_combine_inv in Hk. destruct Hk as [Hv _].
      rewrite nth_error_map in Hl, Hv.
      destruct (nth_error cls_prob k) as [row|] eqn:E; [|discriminate].
      simpl in Hl, Hv. injection Hl as <-. injection Hv as <-.
      rewrite Forall_forall in F.
      destruct (F row (nth_error_In _ _ E)) as [_ [Hl|Hv]].
      - unfold survives, row_label. cbn [fst snd].
        destruct (Z.leb_spec 0 (label_fn row)); [lia|]. reflexivity.
      - unfold survives, row_prob. cbn [fst snd].
        apply andb_false_intro2. apply Qle_bool_false_iff. exact Hv. }
  cbn [map bind]. unfold gather_deltas.
  cbn [one_hot map flatten concat reshape_4 rows_of_4 bind length
       assert_equal Nat.eqb boolean_mask where_ where_from gather mapM
       decode clip_boxes validity_filter change_order].
  unfold per_class_nms.
  rewrite (@mapM_total _ _ (class_nms self [] [] [])
             (fun _ => ([], [], [])) (seq 0 (_num_classes self)))
    by (apply Forall_forall; intros c _; apply class_nms_of_nothing;
        assumption).
  cbn [bind]. rewrite !map_map. cbn [fst snd]. rewrite !map_const_seq.
  unfold top_k_selection.
  destruct (_num_classes self) as [|n]; [lia|].
  cbn [repeat concat0 bind concat app]. rewrite !concat_repeat_nil.
  rewrite int32_in_range by lia.
  cbn [bind change_order map length].
  replace (Z.min (_total_max_detections self) (Z.of_nat 0)) with 0%Z by lia.
  reflexivity.
Qed.

Lemma no_survivor_gives_empty_output_witness :
  _build exp_series
         (__init__ 2 {| class_max_detections := 10;
                        class_nms_threshold := 3 # 10;
                        total_max_detections := 5;
                        min_prob_threshold := Some (95 # 100) |})
         [[0; 0; 0; 10; 10]; [0; 1; 1; 11; 11]]
         [[0; 0; 0; 0; 0; 0; 0; 0]; [0; 0; 0; 0; 0; 0; 0; 0]]
         [[9 # 10; 1 # 10; 0]; [1 # 10; 8 # 10; 1 # 10]]
         (100, 100)
  = Ok {| raw_objects := [];
          objects := [];
          proposal_label := [];
          proposal_label_prob := [];
          selected_boxes := [[]; []];
          selected_probs := [[]; []];
          selected_labels := [[]; []] |}.
Proof.
  apply (@no_survivor_gives_empty_output
           exp_series
           (__init__ 2 {| class_max_detections := 10;
                          class_nms_threshold := 3 # 10;
                          total_max_detections := 5;
                          min_prob_threshold := Some (95 # 100) |})
           [[0; 0; 0; 10; 10]; [0; 1; 1; 11; 11]]
           [[0; 0; 0; 0; 0; 0; 0; 0]; [0; 0; 0; 0; 0; 0; 0; 0]]
           [[9 # 10; 1 # 10; 0]; [1 # 10; 8 # 10; 1 # 10]]
           (100, 100)).
  - reflexivity.
  - reflexivity.
  - apply Forall_cons; [split; [discriminate|left; reflexivity]|].
    apply Forall_cons; [split; [discriminate|right; reflexivity]|].
    apply Forall_nil.
  - vm_compute. discriminate.
  - vm_compute. discriminate.
  - vm_compute. split; discriminate.
  - vm_compute. split; discriminate.
  - vm_compute. apply le_S, le_n.
Defined.

(** ** The pipeline on tensors of the documented shapes *)

Lemma combine_fst {A B : Type} (l1 : list A) (l2 : list B) :
  length l1 = length l2 -> map fst (combine l1 l2) = l1.
Proof.
  revert l2. induction l1 as [|x l1 IH]; intros [|y l2] H; simpl in *;
    try discriminate; [reflexivity|].
  f_equal. apply IH. lia.
Qed.

Lemma combine_snd {A B : Type} (l1 : list A) (l2 : list B) :
  length l1 = length l2 -> map snd (combine l1 l2) = l2.
Proof.
  revert l2. induction l1 as [|x l1 IH]; intros [|y l2] H; simpl in *;
    try discriminate; [reflexivity|].
  f_equal. apply IH. lia.
Qed.

Lemma gather_total {A : Type} (t : list A) (idx : list nat) :
  Forall (fun i => (i < length t)%nat) idx -> exists r, gather t idx = Ok r.
Proof.
  unfold gather. induction 1 as [|i idx Hi _ [r Hr]]; simpl.
  - eexists. reflexivity.
  - destruct (nth_error t i) as [x|] eqn:E.
    + rewrite Hr. eexists. reflexivity.
    + apply nth_error_None in E. lia.
Qed.

Lemma class_nms_rows (self : t) (rows : list detection) (class_id : nat) :
  0 <= _class_nms_threshold self -> _class_nms_threshold self <= 1 ->
  (0 <= _class_max_detections self <= 2147483647)%Z ->
  exists r,
    class_nms self (map det_box rows) (map det_label rows) (map det_prob rows)
              class_id = Ok r.
Proof.
  intros T0 T1 M0.
  set (rows_c := filter (fun d => Z.eqb (det_label d) (Z.of_nat class_id))
                        rows).
  set (A := map det_box rows_c). set (S := map det_prob rows_c).
  assert (LA : length A = length rows_c) by apply length_map.
  assert (LS : length S = length rows_c) by apply length_map.
  unfold class_nms. rewrite !map_map.
  change (fun x : detection => (det_label x =? Z.of_nat class_id)%Z)
    with (fun d : detection => (det_label d =? Z.of_nat class_id)%Z).
  rewrite (boolean_mask_map det_box), (boolean_mask_map det_prob).
  cbn [bind]. fold rows_c. fold A. fold S.
  unfold non_max_suppression. rewrite int32_in_range by lia. cbn [bind].
  apply Qle_bool_iff in T0, T1. rewrite T0, T1. cbn [andb negb].
  replace (_class_max_detections self <? 0)%Z with false
    by (symmetry; apply Z.ltb_ge; lia).
  rewrite LA, LS, Nat.eqb_refl. cbn [negb bind].
  set (kept := nms_loop _ _ _ _).
  assert (N : Forall (fun c => nth_error A (cand_index c) = Some (cand_box c) /\
                               nth_error S (cand_index c) = Some (cand_score c))
                     kept).
  { apply Forall_forall. intros c Hc. apply nms_loop_incl in Hc.
    destruct Hc as [Hc|[]].
    eapply Permutation_in in Hc; [|apply sort_desc_perm].
    pose proof (indexed_nth_error (combine A S)) as I.
    rewrite Forall_forall in I. specialize (I c Hc).
    destruct c as [i [b s]]. simpl in I.
    apply nth_error_combine_inv in I. exact I. }
  rewrite (@gather_map _ _ A kept cand_index cand_box)
    by (eapply Forall_impl; [|exact N]; simpl; tauto).
  rewrite (@gather_map _ _ S kept cand_index cand_score)
    by (eapply Forall_impl; [|exact N]; simpl; tauto).
  cbn [bind]. eexists. reflexivity.
Qed.

Lemma class_nms_total (self : t) (objects_tf : list box) (labels : list Z)
    (probs : list Q) (class_id : nat) :
  length labels = length objects_tf -> length probs = length objects_tf ->
  0 <= _class_nms_threshold self -> _class_nms_threshold self <= 1 ->
  (0 <= _class_max_detections self <= 2147483647)%Z ->
  exists r, class_nms self objects_tf labels probs class_id = Ok r.
Proof.
  intros Hl Hp T0 T1 M0.
  pose (rows := combine objects_tf (combine labels probs) : list detection).
  assert (E1 : map det_box rows = objects_tf).
  { apply combine_fst. rewrite length_combine. lia. }
  assert (E2 : map det_label rows = labels).
  { transitivity (map fst (map snd rows));
      [rewrite map_map; reflexivity|]. unfold rows.
    rewrite combine_snd by (rewrite length_combine; lia).
    apply combine_fst. lia. }
  assert (E3 : map det_prob rows = probs).
  { transitivity (map snd (map snd rows));
      [rewrite map_map; reflexivity|]. unfold rows.
    rewrite combine_snd by (rewrite length_combine; lia).
    apply combine_snd. lia. }
  destruct (class_nms_rows self rows class_id T0 T1 M0) as [r Hr].
  rewrite E1, E2, E3 in Hr. exists r. exact Hr.
Qed.

Lemma top_k_selection_total (self : t) (sb : list (list box))
    (sp : list (list Q)) (sl : list (list Z)) :
  sb <> [] -> sp <> [] -> sl <> [] ->
  length (concat sb) = length (concat sp) ->
  length (concat sl) = length (concat sp) ->
  (0 <= _total_max_detections self <= 2147483647)%Z ->
  exists r, top_k_selection self sb sp sl = Ok r.
Proof.
  intros Hb Hp Hl Lb Ll Ht. unfold top_k_selection.
  replace (concat0 sb) with (Ok (concat sb))
    by (destruct sb; [contradiction|reflexivity]).
  replace (concat0 sp) with (Ok (concat sp))
    by (destruct sp; [contradiction|reflexivity]).
  replace (concat0 sl) with (Ok (concat sl))
    by (destruct sl; [contradiction|reflexivity]).
  cbn [bind]. rewrite int32_in_range by lia. cbn [bind]. unfold top_k.
  set (P := concat sp) in *.
  set (k := Z.min (_total_max_detections self) (Z.of_nat (length P))).
  destruct (Z.ltb_spec k 0); [lia|].
  destruct (Z.ltb_spec (Z.of_nat (length P)) k); [lia|].
  cbn [bind].
  set (best := firstn (Z.to_nat k) (sort_desc snd (indexed P))).
  assert (I : Forall (fun i => (i < length P)%nat) (map fst best)).
  { apply Forall_forall. intros i Hi. apply in_map_iff in Hi.
    destruct Hi as (c & <- & Hc). apply In_firstn_In in Hc.
    eapply Permutation_in in Hc; [|apply sort_desc_perm].
    pose proof (indexed_nth_error P) as J. rewrite Forall_forall in J.
    apply nth_error_Some. rewrite (J c Hc). discriminate. }
  destruct (@gather_total _ (change_order (concat sb)) (map fst best))
    as [r1 E1].
  { unfold change_order. rewrite length_map, Lb. exact I. }
  destruct (@gather_total _ (concat sl) (map fst best)) as [r2 E2].
  { rewrite Ll. exact I. }
  rewrite E1. cbn [bind]. rewrite E2. cbn [bind]. eexists. reflexivity.
Qed.

Lemma row4_total (r : list Q) :
  length r = 4%nat -> exists b, row4 r = Ok b.
Proof.
  destruct r as [|a [|b [|c [|d [|e r]]]]]; simpl; try discriminate.
  intros _. eexists. reflexivity.
Qed.

Lemma decode_total (exp : Q -> Q) (roi deltas : list (list Q)) :
  length roi = length deltas ->
  Forall (fun r => length r = 4%nat) roi ->
  Forall (fun r => length r = 4%nat) deltas ->
  exists raw, decode exp roi deltas = Ok raw.
Proof.
  revert deltas. induction roi as [|r roi IH]; intros [|d deltas] H Fr Fd;
    try discriminate.
  - eexists. reflexivity.
  - inversion Fr; subst. inversion Fd; subst.
    destruct (@row4_total r) as [r4 Er]; [assumption|].
    destruct (@row4_total d) as [d4 Ed]; [assumption|].
    destruct (IH deltas) as [raw Eraw]; [simpl in H; lia|assumption..|].
    cbn [decode]. rewrite Er, Ed. cbn [bind]. rewrite Eraw. cbn [bind].
    eexists. reflexivity.
Qed.

Lemma decode_Ok_rows (exp : Q -> Q) (roi deltas : list (list Q))
    (raw : list box) (k : nat) (b : box) :
  decode exp roi deltas = Ok raw -> nth_error raw k = Some b ->
  exists r d r4 d4,
    nth_error roi k = Some r /\ nth_error deltas k = Some d /\
    row4 r = Ok r4 /\ row4 d = Ok d4 /\ b = decode_box exp r4 d4.
Proof.
  revert deltas raw k. induction roi as [|r roi IH];
    intros [|d deltas] raw k H Hk; try discriminate.
  - injection H as <-. destruct k; discriminate.
  - cbn [decode] in H.
    destruct (row4 r) as [r4|] eqn:Er; [|discriminate].
    destruct (row4 d) as [d4|] eqn:Ed; [|discriminate].
    cbn [bind] in H.
    destruct (decode exp roi deltas) as [bs|] eqn:E; [|discriminate].
    cbn [bind] in H. injection H as <-.
    destruct k as [|k].
    + injection Hk as <-. exists r, d, r4, d4. auto.
    + simpl in Hk. destruct (IH deltas bs k E Hk)
        as (r' & d' & r4' & d4' & H1 & H2 & H3 & H4 & H5).
      exists r', d', r4', d4'. auto.
Qed.

Lemma label_fn_range (row : list Q) (n : nat) :
  length row = S n -> (-1 <= label_fn row < Z.of_nat n)%Z.
Proof.
  intro H. destruct (@label_fn_spec row) as (i & (Hi & _) & E & _).
  - destruct row; discriminate.
  - rewrite E. lia.
Qed.

Lemma length_class_deltas (n : nat) (l : Z) (row : list Q) :
  length row = (4 * n)%nat -> (0 <= l < Z.of_nat n)%Z ->
  length (class_deltas l row) = 4%nat.
Proof.
  intros H Hl. unfold class_deltas. rewrite length_firstn, length_skipn. lia.
Qed.

(** The rows that survive the filter, for inputs of one length. *)
Lemma kept_row_source (self : t)
    (proposals bbox_pred cls_prob : list (list Q)) (r : assigned_row) :
  In r (filter (survives self)
               (assigned_rows (strip_batch_id proposals)
                              (map label_fn cls_prob) (map prob_fn cls_prob)
                              bbox_pred)) ->
  exists i prow crow,
    nth_error proposals i = Some prow /\
    nth_error cls_prob i = Some crow /\
    nth_error bbox_pred i = Some (row_deltas r) /\
    row_proposal r = skipn 1 prow /\
    row_label r = label_fn crow /\ row_prob r = prob_fn crow /\
    (0 <= row_label r)%Z /\ _min_prob_threshold self <= row_prob r.
Proof.
  intro H. apply filter_In in H. destruct H as [H S].
  apply survives_iff in S. destruct S as [S1 S2].
  apply In_nth_error in H. destruct H as [i Hi].
  destruct r as (p & l & v & d). unfold assigned_rows in Hi.
  apply nth_error_combine_inv in Hi. destruct Hi as [Hp Hi].
  apply nth_error_combine_inv in Hi. destruct Hi as [Hl Hi].
  apply nth_error_combine_inv in Hi. destruct Hi as [Hv Hd].
  unfold strip_batch_id in Hp. rewrite nth_error_map in Hp, Hl, Hv.
  destruct (nth_error proposals i) as [prow|] eqn:Ep; [|discriminate].
  destruct (nth_error cls_prob i) as [crow|] eqn:Ec; [|discriminate].
  simpl in Hp, Hl, Hv. injection Hp as <-. injection Hl as <-.
  injection Hv as <-.
  exists i, prow, crow.
  unfold row_deltas, row_proposal, row_label, row_prob in *.
  cbn [fst snd] in *. repeat split; try assumption; try reflexivity.
Qed.

(** Everything before the loop over the classes, on tensors of one length
    whose rows have the documented numbers of columns: only the decoder is
    left to run, on the surviving proposals and the columns of their
    classes. *)
Lemma before_nms_forward (exp : Q -> Q) (self : t)
    (proposals bbox_pred cls_prob : list (list Q)) (im_shape : Q * Q) :
  length proposals = length cls_prob ->
  length bbox_pred = length cls_prob ->
  Forall (fun row => length row = (4 * _num_classes self)%nat) bbox_pred ->
  Forall (fun row => length row = S (_num_classes self)) cls_prob ->
  let kept := filter (survives self)
                (assigned_rows (strip_batch_id proposals)
                               (map label_fn cls_prob) (map prob_fn cls_prob)
                               bbox_pred) in
  before_nms exp self proposals bbox_pred cls_prob im_shape
  = (raw <- decode exp (map row_proposal kept)
                   (map (fun r => class_deltas (row_label r) (row_deltas r))
                        kept) ;;
     Ok (raw, change_order (clip_boxes raw im_shape),
         map row_label kept, map row_prob kept)).
Proof.
  intros Hp Hb W C kept. unfold before_nms.
  rewrite label_assignment_filter;
    [| unfold strip_batch_id; rewrite length_map; assumption
     | assumption
     | eapply Forall_impl; [|exact C]; intros row Hr E; rewrite E in Hr;
       discriminate ].
  cbn [bind]. fold kept.
  rewrite gather_deltas_columns.
  - cbn [bind]. rewrite combine_map_same, map_map. cbn [fst snd].
    destruct (decode exp _ _) as [raw|e] eqn:E; [|reflexivity].
    cbn [bind]. apply decode_Ok_length in E. rewrite length_map in E.
    rewrite validity_filter_id
      by (unfold clip_boxes; rewrite !length_map; symmetry; exact E).
    reflexivity.
  - rewrite !length_map. reflexivity.
  - apply Forall_forall. intros l Hl. apply in_map_iff in Hl.
    destruct Hl as (r & <- & Hr).
    destruct (kept_row_source _ _ _ _ _ Hr)
      as (i & prow & crow & _ & Hc & _ & _ & El & _ & H0 & _).
    split; [exact H0|]. rewrite El. apply label_fn_range.
    rewrite Forall_forall in C. apply C. eapply nth_error_In. exact Hc.
  - apply Forall_forall. intros d Hd. apply in_map_iff in Hd.
    destruct Hd as (r & <- & Hr).
    destruct (kept_row_source _ _ _ _ _ Hr)
      as (i & prow & crow & _ & _ & Hd & _).
    rewrite Forall_forall in W. apply W. eapply nth_error_In. exact Hd.
Qed.

Lemma build_total_after (exp : Q -> Q) (self : t)
    (proposals bbox_pred cls_prob : list (list Q)) (im_shape : Q * Q)
    (raw objects_tf : list box) (labels : list Z) (probs : list Q) :
  before_nms exp self proposals bbox_pred cls_prob im_shape
  = Ok (raw, objects_tf, labels, probs) ->
  0 <= _class_nms_threshold self -> _class_nms_threshold self <= 1 ->
  (0 <= _class_max_detections self <= 2147483647)%Z ->
  (0 <= _total_max_detections self <= 2147483647)%Z ->
  (1 <= _num_classes self)%nat ->
  exists out, _build exp self proposals bbox_pred cls_prob im_shape = Ok out.
Proof.
  intros Hb T0 T1 M0 Mt Hn.
  pose proof (before_nms_facts exp self proposals bbox_pred cls_prob
                im_shape Hb) as (Ll & Lp & _ & _).
  destruct (@mapM_exists _ _ (class_nms self objects_tf labels probs)
              (fun _ _ => True) (seq 0 (_num_classes self)))
    as (per_class & E & _).
  { apply Forall_forall. intros c _.
    destruct (@class_nms_total self objects_tf labels probs c Ll Lp T0 T1 M0)
      as [r Hr].
    exists r. split; [exact Hr|exact I]. }
  pose proof (mapM_Ok_Forall2 _ _ E) as F.
  pose proof (mapM_Ok_length _ _ E) as Len. rewrite length_seq in Len.
  destruct (@tag_from_columns self objects_tf labels probs
              (_num_classes self) 0 per_class F) as (B & P & L & _).
  cbv zeta in B, P, L.
  destruct (@top_k_selection_total self
              (map (fun r => fst (fst r)) per_class)
              (map (fun r => snd (fst r)) per_class)
              (map snd per_class)) as [[[o l] v] Ek].
  - destruct per_class; [simpl in Len; lia|discriminate].
  - destruct per_class; [simpl in Len; lia|discriminate].
  - destruct per_class; [simpl in Len; lia|discriminate].
  - rewrite B, P, !length_map. reflexivity.
  - rewrite L, P, !length_map. reflexivity.
  - exact Mt.
  - unfold _build. rewrite Hb. cbn [bind]. unfold per_class_nms.
    rewrite E. cbn [bind]. rewrite Ek. cbn [bind]. eexists. reflexivity.
Qed.

(** On tensors of the documented shapes (one row per proposal in each, five
    columns in [proposals], four for each class in [bbox_pred], one for the
    background and one for each class in [cls_prob]) and with a
    configuration the ops accept (a threshold in [0,1], caps that are not
    negative and fit an int32, at least one class), no op of [_build]
    fails. *)
Theorem build_succeeds_on_documented_shapes :
  forall (exp : Q -> Q) (self : t)
         (proposals bbox_pred cls_prob : list (list Q)) (im_shape : Q * Q),
    length proposals = length cls_prob ->
    length bbox_pred = length cls_prob ->
    Forall (fun row => length row = 5%nat) proposals ->
    Forall (fun row => length row = (4 * _num_classes self)%nat) bbox_pred ->
    Forall (fun row => length row = S (_num_classes self)) cls_prob ->
    0 <= _class_nms_threshold self -> _class_nms_threshold self <= 1 ->
    (0 <= _class_max_detections self <= 2147483647)%Z ->
    (0 <= _total_max_detections self <= 2147483647)%Z ->
    (1 <= _num_classes self)%nat ->
    exists out,
      _build exp self proposals bbox_pred cls_prob im_shape = Ok out.
Proof.
  intros exp self proposals bbox_pred cls_prob im_shape
         Hp Hb V W C T0 T1 M0 Mt Hn.
  pose proof (@before_nms_forward exp self proposals bbox_pred cls_prob
                im_shape Hp Hb W C) as E.
  cbv zeta in E.
  set (kept := filter _ _) in E.
  destruct (@decode_total exp (map row_proposal kept)
              (map (fun r => class_deltas (row_label r) (row_deltas r)) kept))
    as [raw Eraw].
  - rewrite !length_map. reflexivity.
  - apply Forall_forall. intros p Hin. apply in_map_iff in Hin.
    destruct Hin as (r & <- & Hr).
    destruct (kept_row_source _ _ _ _ _ Hr)
      as (i & prow & crow & Hi & _ & _ & Ep & _).
    rewrite Ep, length_skipn. rewrite Forall_forall in V.
    rewrite (V prow (nth_error_In _ _ Hi)). reflexivity.
  - apply Forall_forall. intros d Hin. apply in_map_iff in Hin.
    destruct Hin as (r & <- & Hr).
    destruct (kept_row_source _ _ _ _ _ Hr)
      as (i & prow & crow & _ & Hc & Hd & _ & El & _ & H0 & _).
    apply length_class_deltas with (n := _num_classes self).
    + rewrite Forall_forall in W. apply W. eapply nth_error_In. exact Hd.
    + split; [exact H0|]. rewrite El. apply label_fn_range.
      rewrite Forall_forall in C. apply C. eapply nth_error_In. exact Hc.
  - rewrite Eraw in E. cbn [bind] in E.
    eapply build_total_after; eassumption.
Qed.

Lemma build_succeeds_on_documented_shapes_witness :
  exists out,
    _build exp_series Scenario.self Scenario.proposals Scenario.bbox_pred
           Scenario.cls_prob Scenario.im_shape = Ok out.
Proof.
  apply (@build_succeeds_on_documented_shapes
           exp_series Scenario.self Scenario.proposals Scenario.bbox_pred
           Scenario.cls_prob Scenario.im_shape).
  - reflexivity.
  - reflexivity.
  - repeat (apply Forall_cons; [reflexivity|]). apply Forall_nil.
  - repeat (apply Forall_cons; [reflexivity|]). apply Forall_nil.
  - repeat (apply Forall_cons; [reflexivity|]). apply Forall_nil.
  - vm_compute. discriminate.
  - vm_compute. discriminate.
  - vm_compute. split; discriminate.
  - vm_compute. split; discriminate.
  - vm_compute. apply le_S, le_n.
Defined.

(** ** Where a detection comes from *)

Lemma class_nms_source (self : t) (objects_tf : list box) (labels : list Z)
    (probs : list Q) (class_id : nat) (bs : list box) (ps : list Q)
    (ls : list Z) (j : nat) (b : box) (p : Q) :
  class_nms self objects_tf labels probs class_id = Ok (bs, ps, ls) ->
  nth_error bs j = Some b -> nth_error ps j = Some p ->
  exists k,
    nth_error objects_tf k = Some b /\
    nth_error labels k = Some (Z.of_nat class_id) /\
    nth_error probs k = Some p.
Proof.
  intros H Hb Hp. apply class_nms_inv in H.
  destruct H as (cobjs & cprobs & E1 & E2 & Len & _ & E).
  cbv zeta in E. set (kept := nms_loop _ _ _ _) in E.
  injection E as -> -> _.
  rewrite nth_error_map in Hb, Hp.
  destruct (nth_error kept j) as [c|] eqn:Ec; [|discriminate].
  simpl in Hb, Hp. injection Hb as <-. injection Hp as <-.
  apply nth_error_In in Ec. apply nms_loop_incl in Ec.
  destruct Ec as [Ec|[]].
  eapply Permutation_in in Ec; [|apply sort_desc_perm].
  pose proof (indexed_nth_error (combine cobjs cprobs)) as I.
  rewrite Forall_forall in I. specialize (I c Ec).
  destruct c as [m [b p]]. cbn [fst snd cand_box cand_score] in *.
  apply nth_error_combine_inv in I. destruct I as [Ib Ip].
  unfold boolean_mask in E1, E2.
  set (idx := where_ (map (fun l => Z.eqb l (Z.of_nat class_id)) labels)) in *.
  assert (Hm : (m < length idx)%nat).
  { rewrite <- (gather_Ok_length _ _ E1). apply nth_error_Some.
    rewrite Ib. discriminate. }
  destruct (nth_error idx m) as [k|] eqn:Ek.
  2:{ apply nth_error_None in Ek. lia. }
  destruct (gather_nth_error _ _ _ E1 Ek) as [G1 _].
  destruct (gather_nth_error _ _ _ E2 Ek) as [G2 _].
  exists k. rewrite <- G1, <- G2. repeat split; try assumption.
  apply nth_error_In in Ek. unfold idx, where_ in Ek.
  apply where_from_true in Ek. rewrite Nat.sub_0_r, nth_error_map in Ek.
  destruct (nth_error labels k) as [l|]; [|discriminate].
  simpl in Ek. injection Ek as Ek. apply Z.eqb_eq in Ek. rewrite Ek.
  reflexivity.
Qed.

(** On tensors of one length whose rows have the documented numbers of
    columns, every detection of the output is made from one row of the
    inputs: its label and probability are the ones lines 75-77 give the row
    of [cls_prob], the label is not the background, and its box is the
    proposal of the row without its batch number, moved by the columns of
    [bbox_pred] of that label and clipped to the image. *)
Theorem every_detection_decodes_a_proposal :
  forall (exp : Q -> Q) (self : t)
         (proposals bbox_pred cls_prob : list (list Q)) (im_shape : Q * Q)
         (out : output) (i : nat) (b : box) (l : Z) (p : Q),
    length proposals = length cls_prob ->
    length bbox_pred = length cls_prob ->
    Forall (fun row => length row = (4 * _num_classes self)%nat) bbox_pred ->
    Forall (fun row => length row = S (_num_classes self)) cls_prob ->
    _build exp self proposals bbox_pred cls_prob im_shape = Ok out ->
    nth_error (objects out) i = Some b ->
    nth_error (proposal_label out) i = Some l ->
    nth_error (proposal_label_prob out) i = Some p ->
    exists (r : nat) (prow crow drow : list Q) (roi deltas : box),
      nth_error proposals r = Some prow /\
      nth_error cls_prob r = Some crow /\
      nth_error bbox_pred r = Some drow /\
      label_of crow = Ok l /\ reduce_max crow = Ok p /\ (0 <= l)%Z /\
      row4 (skipn 1 prow) = Ok roi /\
      row4 (class_deltas l drow) = Ok deltas /\
      b = clip_box im_shape (decode_box exp roi deltas).
Proof.
  intros exp self proposals bbox_pred cls_prob im_shape out i b l p
         Lp Lb W C H Hb Hl Hp.
  destruct (build_picked exp self proposals bbox_pred cls_prob im_shape H)
    as (picked & rest & Pw & Eo & El & Ev & _ & _ & I & _).
  rewrite Eo, nth_error_map in Hb. rewrite El, nth_error_map in Hl.
  rewrite Ev, nth_error_map in Hp.
  destruct (nth_error picked i) as [w|] eqn:Ew; [|discriminate].
  simpl in Hb, Hl, Hp. injection Hb as <-. injection Hl as <-.
  injection Hp as <-.
  assert (Hw : In w (class_detections out)).
  { eapply Permutation_in; [exact Pw|]. apply in_or_app. left.
    eapply nth_error_In. exact Ew. }
  rewrite Forall_forall in I. destruct (I w Hw) as (Hc & _ & _).
  apply tag_from_In in Hw.
  destruct Hw as (bs & ps & j & _ & Ebs & Eps & Hbj & Hpj).
  rewrite Nat.sub_0_r in Ebs, Eps.
  pose proof H as H'. apply build_Ok in H'.
  destruct H' as (objects_tf & labels & probs & Hbefore & _ & _).
  destruct (build_class_entry exp self proposals bbox_pred cls_prob im_shape
              Hbefore H Hc)
    as (bs' & ps' & ls & Ebs' & Eps' & _ & Hcn).
  rewrite Ebs in Ebs'. injection Ebs' as <-.
  rewrite Eps in Eps'. injection Eps' as <-.
  destruct (class_nms_source _ _ _ _ _ _ Hcn Hbj Hpj)
    as (k & Ko & Kl & Kp).
  rewrite (@before_nms_forward exp self proposals bbox_pred cls_prob
             im_shape Lp Lb W C) in Hbefore.
  cbv zeta in Hbefore. set (kept := filter _ _) in Hbefore.
  destruct (decode exp _ _) as [raw|] eqn:Ed; [|discriminate].
  cbn [bind] in Hbefore. injection Hbefore as _ <- <- <-.
  unfold change_order, clip_boxes in Ko.
  rewrite !nth_error_map in Ko. rewrite nth_error_map in Kl, Kp.
  destruct (nth_error raw k) as [rb|] eqn:Er; [|discriminate].
  destruct (nth_error kept k) as [row|] eqn:Ek; [|discriminate].
  simpl in Ko, Kl, Kp. injection Ko as Ko. injection Kl as Kl.
  injection Kp as Kp.
  destruct (decode_Ok_rows _ _ _ _ Ed Er)
    as (roi & d & r4 & d4 & Hroi & Hd & R4 & D4 & ->).
  rewrite nth_error_map, Ek in Hroi, Hd. simpl in Hroi, Hd.
  injection Hroi as <-. injection Hd as <-.
  destruct (kept_row_source _ _ _ _ _ (nth_error_In _ _ Ek))
    as (r & prow & crow & Hpr & Hcr & Hdr & Epr & Elr & Evr & H0 & _).
  assert (Hne : crow <> []).
  { rewrite Forall_forall in C.
    pose proof (C crow (nth_error_In _ _ Hcr)) as Hlen.
    intro E. rewrite E in Hlen. discriminate. }
  exists r, prow, crow, (row_deltas row), r4, d4.
  rewrite <- Kl, <- Kp, <- Ko, change_order_box_involutive.
  rewrite (label_of_nonempty Hne), (reduce_max_nonempty Hne).
  rewrite <- Epr, <- Elr, <- Evr.
  repeat split; try assumption; try reflexivity.
Qed.

Lemma every_detection_decodes_a_proposal_witness :
  exists (out : output) (b : box) (r : nat) (prow crow drow : list Q)
         (roi deltas : box),
    _build exp_series Scenario.self Scenario.proposals Scenario.bbox_pred
           Scenario.cls_prob Scenario.im_shape = Ok out /\
    nth_error (objects out) 0 = Some b /\
    nth_error Scenario.proposals r = Some prow /\
    nth_error Scenario.cls_prob r = Some crow /\
    nth_error Scenario.bbox_pred r = Some drow /\
    label_of crow = Ok 1%Z /\ reduce_max crow = Ok (9 # 10) /\
    row4 (skipn 1 prow) = Ok roi /\
    row4 (class_deltas 1 drow) = Ok deltas /\
    b = clip_box Scenario.im_shape (decode_box exp_series roi deltas).
Proof.
  assert (Ho : {o | _build exp_series Scenario.self Scenario.proposals
                      Scenario.bbox_pred Scenario.cls_prob Scenario.im_shape
                    = Ok o}) by (eexists; vm_compute; reflexivity).
  destruct Ho as [out Ho].
  assert (Eb : {b | nth_error (objects out) 0 = Some b}).
  { vm_compute in Ho. injection Ho as <-. eexists. reflexivity. }
  destruct Eb as [b Eb].
  assert (El : nth_error (proposal_label out) 0 = Some 1%Z).
  { vm_compute in Ho. injection Ho as <-. reflexivity. }
  assert (Ep : nth_error (proposal_label_prob out) 0 = Some (9 # 10)).
  { vm_compute in Ho. injection Ho as <-. reflexivity. }
  assert (W : Forall (fun row => length row
                                 = (4 * _num_classes Scenario.self)%nat)
                     Scenario.bbox_pred)
    by (repeat (apply Forall_cons; [reflexivity|]); apply Forall_nil).
  assert (C : Forall (fun row => length row = S (_num_classes Scenario.self))
                     Scenario.cls_prob)
    by (repeat (apply Forall_cons; [reflexivity|]); apply Forall_nil).
  destruct (@every_detection_decodes_a_proposal
              exp_series Scenario.self Scenario.proposals Scenario.bbox_pred
              Scenario.cls_prob Scenario.im_shape out 0%nat b 1%Z (9 # 10)
              eq_refl eq_refl W C Ho Eb El Ep)
    as (r & prow & crow & drow & roi & deltas & H1 & H2 & H3 & H4 & H5 & _
        & H7 & H8 & H9).
  exists out, b, r, prow, crow, drow, roi, deltas. auto 12.
Defined.

Lemma decode_map_Forall2 {A : Type} (exp : Q -> Q) (f g : A -> list Q)
    (l : list A) (raw : list box) :
  decode exp (map f l) (map g l) = Ok raw ->
  Forall2 (fun x b => exists roi deltas,
                        row4 (f x) = Ok roi /\ row4 (g x) = Ok deltas /\
                        b = decode_box exp roi deltas) l raw.
Proof.
  revert raw. induction l as [|x l IH]; intros raw H.
  - injection H as <-. constructor.
  - cbn [map decode] in H.
    destruct (row4 (f x)) as [r4|] eqn:Er; [|discriminate].
    destruct (row4 (g x)) as [d4|] eqn:Ed; [|discriminate].
    cbn [bind] in H.
    destruct (decode exp (map f l) (map g l)) as [bs|] eqn:E; [|discriminate].
    cbn [bind] in H. injection H as <-. constructor.
    + exists r4, d4. auto.
    + apply IH. reflexivity.
Qed.

(** On tensors of one length whose rows have the documented numbers of
    columns, [raw_objects] holds one box for every proposal that survives
    the filter of lines 80-87, in the order of the input: the proposal moved
    by the columns of its label, before any clipping, suppression or
    top-k. *)
Theorem raw_objects_are_the_decoded_survivors :
  forall (exp : Q -> Q) (self : t)
         (proposals bbox_pred cls_prob : list (list Q)) (im_shape : Q * Q)
         (out : output),
    length proposals = length cls_prob ->
    length bbox_pred = length cls_prob ->
    Forall (fun row => length row = (4 * _num_classes self)%nat) bbox_pred ->
    Forall (fun row => length row = S (_num_classes self)) cls_prob ->
    _build exp self proposals bbox_pred cls_prob im_shape = Ok out ->
    Forall2 (fun r b => exists roi deltas,
                          row4 (row_proposal r) = Ok roi /\
                          row4 (class_deltas (row_label r) (row_deltas r))
                          = Ok deltas /\
                          b = decode_box exp roi deltas)
            (filter (survives self)
                    (assigned_rows (strip_batch_id proposals)
                                   (map label_fn cls_prob)
                                   (map prob_fn cls_prob) bbox_pred))
            (raw_objects out).
Proof.
  intros exp self proposals bbox_pred cls_prob im_shape out Lp Lb W C H.
  apply build_Ok in H.
  destruct H as (objects_tf & labels & probs & Hbefore & _ & _).
  rewrite (@before_nms_forward exp self proposals bbox_pred cls_prob
             im_shape Lp Lb W C) in Hbefore.
  cbv zeta in Hbefore.
  destruct (decode exp _ _) as [raw|] eqn:Ed; [|discriminate].
  cbn [bind] in Hbefore. injection Hbefore as <- _ _ _.
  apply decode_map_Forall2 in Ed. exact Ed.
Qed.

Lemma raw_objects_are_the_decoded_survivors_witness :
  exists out,
    _build exp_series Scenario.self Scenario.proposals Scenario.bbox_pred
           Scenario.cls_prob Scenario.im_shape = Ok out /\
    Forall2 (fun r b => exists roi deltas,
                          row4 (row_proposal r) = Ok roi /\
                          row4 (class_deltas (row_label r) (row_deltas r))
                          = Ok deltas /\
                          b = decode_box exp_series roi deltas)
            (filter (survives Scenario.self)
                    (assigned_rows (strip_batch_id Scenario.proposals)
                                   (map label_fn Scenario.cls_prob)
                                   (map prob_fn Scenario.cls_prob)
                                   Scenario.bbox_pred))
            (raw_objects out).
Proof.
  eexists. split; [vm_compute; reflexivity|].
  eapply (@raw_objects_are_the_decoded_survivors
            exp_series Scenario.self Scenario.proposals Scenario.bbox_pred
            Scenario.cls_prob Scenario.im_shape).
  - reflexivity.
  - reflexivity.
  - repeat (apply Forall_cons; [reflexivity|]). apply Forall_nil.
  - repeat (apply Forall_cons; [reflexivity|]). apply Forall_nil.
  - vm_compute. reflexivity.
Defined.
